(** * Credential and access-control core of the course-material server

    A shallow embedding of the Express/Mongoose controllers
    (studentController, folderController, authController), the Drive
    gateway (driveService), the audit logger and the User / Folder / Log
    models, followed by the properties the specification states about
    them.

    Modelling conventions.
    - A MongoDB collection is a finite map from [_id] to document; reads
      and writes reach it one at a time and do not fail.  Schema-level
      validators and setters (required, enum, trim, lowercase) run inside
      Mongoose and are not part of the controllers; they are not modelled.
    - [undefined] and [null] are [None]; a string is falsy when empty.
    - A JS Number that counts views is a [Z] (the counters stay far below
      2^53, where doubles are exact).
    - An [async] handler is a computation in the monad [M]: it threads the
      [World] and may throw; what was written before a throw stays
      written.
    - The outside world is a parameter: the Drive provider, the OAuth
      issuer, the crypto-js library and the process environment. *)

From stdpp Require Import gmap strings list pretty.
From Stdlib Require Import ZArith Lia.

Open Scope string_scope.
Open Scope list_scope.

(** ** JavaScript values *)

Module Js.

(** [!!v] for a value that is a string or absent. *)
Definition truthy (v : option string) : bool :=
  match v with
  | Some s => negb (String.eqb s "")
  | None => false
  end.

(** [a || b] on such values. *)
Definition or (a b : option string) : option string :=
  if truthy a then a else b.

(** [a || 'literal'], whose result is always a string. *)
Definition or_str (a : option string) (b : string) : string :=
  match or a (Some b) with Some s => s | None => b end.

(** [a === b] where [a] may be null and [b] is a string. *)
Definition strict_eq (a : option string) (b : string) : bool :=
  match a with
  | Some s => String.eqb s b
  | None => false
  end.

(** A thrown value: [new Error(message)], possibly with a [code]
    (the Drive client sets the HTTP status there), or the TypeError of
    a property read on null. *)
Inductive Error :=
| Err (message : string) (code : option N)
| TypeError (message : string).

Definition message (e : Error) : string :=
  match e with
  | Err m _ => m
  | TypeError m => m
  end.

Definition code (e : Error) : option N :=
  match e with
  | Err _ c => c
  | TypeError _ => None
  end.

(** How an evaluation ends. *)
Inductive Completion (A : Type) :=
| Normal (a : A)
| Thrown (e : Error).
Arguments Normal {A} a.
Arguments Thrown {A} e.

End Js.

(** ** Data model (models/User, models/Folder, models/Log) *)

Definition ObjectId := N.

Module Role.
Inductive t := student | faculty | admin.

#[global] Instance eq_dec : EqDecision t.
Proof. solve_decision. Defined.

End Role.

Module GoogleTokens.
Record t := mk {
  accessToken : option string;
  refreshToken : option string;
  expiryDate : option Z;
}.
Definition empty : t := mk None None None.
End GoogleTokens.

Module User.
Record t := mk {
  _id : ObjectId;
  name : string;
  email : string;
  googleId : string;
  role : Role.t;
  department : option string;
  departmentCode : option string;
  profilePicture : string;
  googleTokens : GoogleTokens.t;
  isActive : bool;
  lastLogin : Z;
}.

Definition set_department (d : option string) (u : t) : t :=
  mk (_id u) (name u) (email u) (googleId u) (role u) d (departmentCode u)
     (profilePicture u) (googleTokens u) (isActive u) (lastLogin u).

Definition set_departmentCode (c : option string) (u : t) : t :=
  mk (_id u) (name u) (email u) (googleId u) (role u) (department u) c
     (profilePicture u) (googleTokens u) (isActive u) (lastLogin u).



End User.

Module Folder.
Record t := mk {
  _id : ObjectId;
  facultyId : ObjectId;
  facultyName : string;
  facultyEmail : string;
  department : string;
  semester : Z;
  subject : string;
  driveFolderId : string;
  driveFolderLink : string;
  permissions : string;
  description : string;
  isActive : bool;
  viewCount : Z;
  lastAccessed : option Z;
}.

Definition set_subject (s : string) (f : t) : t :=
  mk (_id f) (facultyId f) (facultyName f) (facultyEmail f) (department f)
     (semester f) s (driveFolderId f) (driveFolderLink f) (permissions f)
     (description f) (isActive f) (viewCount f) (lastAccessed f).

Definition set_description (d : string) (f : t) : t :=
  mk (_id f) (facultyId f) (facultyName f) (facultyEmail f) (department f)
     (semester f) (subject f) (driveFolderId f) (driveFolderLink f)
     (permissions f) d (isActive f) (viewCount f) (lastAccessed f).

Definition set_permissions (p : string) (f : t) : t :=
  mk (_id f) (facultyId f) (facultyName f) (facultyEmail f) (department f)
     (semester f) (subject f) (driveFolderId f) (driveFolderLink f) p
     (description f) (isActive f) (viewCount f) (lastAccessed f).

Definition set_isActive (b : bool) (f : t) : t :=
  mk (_id f) (facultyId f) (facultyName f) (facultyEmail f) (department f)
     (semester f) (subject f) (driveFolderId f) (driveFolderLink f)
     (permissions f) (description f) b (viewCount f) (lastAccessed f).

Definition set_viewCount (n : Z) (f : t) : t :=
  mk (_id f) (facultyId f) (facultyName f) (facultyEmail f) (department f)
     (semester f) (subject f) (driveFolderId f) (driveFolderLink f)
     (permissions f) (description f) (isActive f) n (lastAccessed f).

Definition set_lastAccessed (d : option Z) (f : t) : t :=
  mk (_id f) (facultyId f) (facultyName f) (facultyEmail f) (department f)
     (semester f) (subject f) (driveFolderId f) (driveFolderLink f)
     (permissions f) (description f) (isActive f) (viewCount f) d.
End Folder.

(** The closed enum of [logSchema.action]. *)
Module Action.
Inductive t :=
| login | logout | create_folder | delete_folder | view_folder
| update_profile | change_role | deactivate_user | activate_user
| update_department_code.

#[global] Instance eq_dec : EqDecision t.
Proof. solve_decision. Defined.
End Action.

(** A value inside the free-form [details] payload. *)
Inductive Detail :=
| DId (i : ObjectId)
| DStr (s : string)
| DNum (n : Z).

Module Log.
Record t := mk {
  userId : ObjectId;
  userName : string;
  userEmail : string;
  action : Action.t;
  details : list (string * Detail);
  ipAddress : string;
  userAgent : string;
  createdAt : Z;
}.
End Log.

(** ** The outside world *)

(** What [oauth2Client.setCredentials] receives. *)
Record Credentials := mkCredentials {
  access_token : option string;
  refresh_token : option string;
}.

(** The Drive REST API, as far as driveService calls it.  The provider
    answers a call from the calls it has seen so far and the credentials
    the shared client carries; a rejected call throws. *)
Module Drive.

Inductive call :=
| FilesCreate (name mimeType : string)
| PermissionsCreate (fileId type role : string)
| FilesDelete (fileId : string)
| FilesGet (fileId : string).

Record file := mkFile {
  id : string;
  name : string;
  webViewLink : string;
  trashed : bool;
}.

Record exchange := mkExchange {
  auth : Credentials;
  request : call;
  accepted : bool;
}.

Record provider := mkProvider {
  files_create : list exchange -> Credentials -> string -> Js.Completion file;
  permissions_create :
    list exchange -> Credentials -> string -> string -> Js.Completion unit;
  files_delete : list exchange -> Credentials -> string -> Js.Completion unit;
  files_get : list exchange -> Credentials -> string -> Js.Completion file;
}.


End Drive.

(** What [createFolder] hands back to the controller. *)
Module DriveFolder.
Record t := mk {
  id : string;
  name : string;
  link : string;
}.
End DriveFolder.

(** The token issuer behind googleapis' OAuth2 client. *)
Module Issuer.

Record tokens := mkTokens {
  access_token : option string;
  refresh_token : option string;
  expiry_date : option Z;
}.

Record userinfo := mkUserinfo {
  id : string;
  name : string;
  email : string;
  picture : option string;
}.

Record t := mk {
  getToken : string -> Js.Completion tokens;
  userinfo_get : Credentials -> Js.Completion userinfo;
  refreshAccessToken : Credentials -> Js.Completion tokens;
}.

End Issuer.

(** crypto-js, as far as the User model calls it: passphrase-based AES
    with a random salt, and the UTF-8 decoding of the decrypted bytes. *)
Module CryptoJS.

Record t := mk {
  WordArray : Type;
  AES_encrypt : string -> option string -> string -> Js.Completion string;
  AES_decrypt : string -> option string -> Js.Completion WordArray;
  toString_Utf8 : WordArray -> Js.Completion string;
}.

End CryptoJS.

(** [process.env] *)
Record Env := mkEnv {
  ENCRYPTION_KEY : option string;
  ADMIN_EMAIL : option string;
  FRONTEND_URL : string;
}.

(** ** State and the handler monad *)

Record World := mkWorld {
  users : gmap ObjectId User.t;
  folders : gmap ObjectId Folder.t;
  logs : list Log.t;
  oauth2Client : Credentials;
  driveLog : list Drive.exchange;
  console : list (string * Js.Error);
  clock : Z;
  oids : ObjectId;
  entropy : N;
}.

Definition set_users (us : gmap ObjectId User.t) (w : World) : World :=
  mkWorld us (folders w) (logs w) (oauth2Client w) (driveLog w) (console w)
    (clock w) (oids w) (entropy w).

Definition set_folders (fs : gmap ObjectId Folder.t) (w : World) : World :=
  mkWorld (users w) fs (logs w) (oauth2Client w) (driveLog w) (console w)
    (clock w) (oids w) (entropy w).

Definition set_logs (ls : list Log.t) (w : World) : World :=
  mkWorld (users w) (folders w) ls (oauth2Client w) (driveLog w) (console w)
    (clock w) (oids w) (entropy w).

Definition set_oauth2Client (c : Credentials) (w : World) : World :=
  mkWorld (users w) (folders w) (logs w) c (driveLog w) (console w)
    (clock w) (oids w) (entropy w).

Definition set_driveLog (h : list Drive.exchange) (w : World) : World :=
  mkWorld (users w) (folders w) (logs w) (oauth2Client w) h (console w)
    (clock w) (oids w) (entropy w).

Definition set_console (c : list (string * Js.Error)) (w : World) : World :=
  mkWorld (users w) (folders w) (logs w) (oauth2Client w) (driveLog w) c
    (clock w) (oids w) (entropy w).

Definition set_clock (t : Z) (w : World) : World :=
  mkWorld (users w) (folders w) (logs w) (oauth2Client w) (driveLog w)
    (console w) t (oids w) (entropy w).

Definition set_oids (n : ObjectId) (w : World) : World :=
  mkWorld (users w) (folders w) (logs w) (oauth2Client w) (driveLog w)
    (console w) (clock w) n (entropy w).

Definition set_entropy (n : N) (w : World) : World :=
  mkWorld (users w) (folders w) (logs w) (oauth2Client w) (driveLog w)
    (console w) (clock w) (oids w) n.

(** An asynchronous computation: it ends normally or throws, and the
    world it leaves is the one it reached. *)
Definition M (A : Type) : Type := World -> Js.Completion A * World.

#[global] Instance M_ret : MRet M := fun A a w => (Js.Normal a, w).

#[global] Instance M_bind : MBind M := fun A B k c w =>
  match c w with
  | (Js.Normal a, w') => k a w'
  | (Js.Thrown e, w') => (Js.Thrown e, w')
  end.

Definition throw {A} (e : Js.Error) : M A := fun w => (Js.Thrown e, w).

(** [try { c } catch (error) { h error }] *)
Definition try_catch {A} (c : M A) (h : Js.Error -> M A) : M A := fun w =>
  match c w with
  | (Js.Normal a, w') => (Js.Normal a, w')
  | (Js.Thrown e, w') => h e w'
  end.

(** Lifting a completion of a synchronous call. *)
Definition complete {A} (r : Js.Completion A) : M A := fun w => (r, w).

(** Reading a property of [o]; a TypeError when [o] is null. *)
Definition deref {A} (o : option A) : M A :=
  match o with
  | Some a => mret a
  | None => throw (Js.TypeError "Cannot read properties of null")
  end.

Definition console_error (label : string) (e : Js.Error) : M unit :=
  fun w => (Js.Normal tt, set_console (console w ++ [(label, e)]) w).

(** [new Date()] *)
Definition Date_now : M Z := fun w => (Js.Normal (clock w), w).

(** The _id a freshly constructed document receives. *)
Definition new_ObjectId : M ObjectId :=
  fun w => (Js.Normal (oids w), set_oids (oids w + 1)%N w).

(** ** crypto-js: the algorithms behind [CryptoJS.AES] *)

(** Octet strings.  A JS string is held as its UTF-8 octets, so
    [Utf8.parse] is [octets] and [Utf8.stringify] is [of_octets] once
    the octets are known to be well-formed UTF-8. *)
Module Octets.

Definition octets (s : string) : list Z :=
  (fun a => Z.of_N (Ascii.N_of_ascii a)) <$> String.list_ascii_of_string s.

Definition of_octets (l : list Z) : string :=
  String.string_of_list_ascii ((fun b => Ascii.ascii_of_N (Z.to_N b)) <$> l).

Definition xor (a b : list Z) : list Z := zip_with Z.lxor a b.

(** Blocks of [n] octets; a short last block is filled with zeros, as an
    out-of-range word read is in JS. *)
Fixpoint blocks (fuel n : nat) (l : list Z) : list (list Z) :=
  match fuel with
  | O => []
  | S fuel =>
      match l with
      | [] => []
      | _ => take n (l ++ replicate n 0%Z) :: blocks fuel n (drop n l)
      end
  end.

End Octets.

(** RFC 1321. *)
Module MD5.

Definition T : list Z := [
  3614090360; 3905402710; 606105819; 3250441966;
  4118548399; 1200080426; 2821735955; 4249261313;
  1770035416; 2336552879; 4294925233; 2304563134;
  1804603682; 4254626195; 2792965006; 1236535329;
  4129170786; 3225465664; 643717713; 3921069994;
  3593408605; 38016083; 3634488961; 3889429448;
  568446438; 3275163606; 4107603335; 1163531501;
  2850285829; 4243563512; 1735328473; 2368359562;
  4294588738; 2272392833; 1839030562; 4259657740;
  2763975236; 1272893353; 4139469664; 3200236656;
  681279174; 3936430074; 3572445317; 76029189;
  3654602809; 3873151461; 530742520; 3299628645;
  4096336452; 1126891415; 2878612391; 4237533241;
  1700485571; 2399980690; 4293915773; 2240044497;
  1873313359; 4264355552; 2734768916; 1309151649;
  4149444226; 3174756917; 718787259; 3951481745 ]%Z.

Definition shifts : list Z :=
  mjoin (replicate 4 [7; 12; 17; 22]%Z ++ replicate 4 [5; 9; 14; 20]%Z
         ++ replicate 4 [4; 11; 16; 23]%Z ++ replicate 4 [6; 10; 15; 21]%Z)%list.

Definition mask : Z := 4294967295.

Definition add (a b : Z) : Z := Z.land (a + b) mask.

Definition rotl (x c : Z) : Z :=
  Z.land (Z.lor (Z.shiftl x c) (Z.shiftr x (32 - c))) mask.

Definition not (x : Z) : Z := Z.lxor x mask.

(** One of the 64 operations on [(a, b, c, d)] with message words [X]. *)
Definition op (X : list Z) (abcd : Z * Z * Z * Z) (i : nat) : Z * Z * Z * Z :=
  let '(a, b, c, d) := abcd in
  let '(f, g) :=
    if (i <? 16)%nat then (Z.lor (Z.land b c) (Z.land (not b) d), i)
    else if (i <? 32)%nat then
      (Z.lor (Z.land d b) (Z.land (not d) c), (5 * i + 1) mod 16)%nat
    else if (i <? 48)%nat then (Z.lxor (Z.lxor b c) d, (3 * i + 5) mod 16)%nat
    else (Z.lxor c (Z.lor b (not d)), (7 * i) mod 16)%nat in
  let sum := add (add (add a f) (nth i T 0%Z)) (nth g X 0%Z) in
  (d, add b (rotl sum (nth i shifts 0%Z)), b, c).

(** A 32-bit word from four octets, least significant first. *)
Definition word_le (l : list Z) : Z :=
  foldr (fun b acc => b + 256 * acc)%Z 0%Z l.

Definition octets_le (n : nat) (x : Z) : list Z :=
  (fun i => Z.land (Z.shiftr x (8 * Z.of_nat i)) 255) <$> seq 0 n.

Definition compress (h : Z * Z * Z * Z) (block : list Z) : Z * Z * Z * Z :=
  let X := word_le <$> Octets.blocks 16 4 block in
  let '(a, b, c, d) := foldl (op X) h (seq 0 64) in
  let '(a0, b0, c0, d0) := h in
  (add a0 a, add b0 b, add c0 c, add d0 d).

Definition pad (m : list Z) : list Z :=
  let n := length m in
  let zeros := ((55 + 64 - n mod 64) mod 64)%nat in
  m ++ [128%Z] ++ replicate zeros 0%Z ++ octets_le 8 (8 * Z.of_nat n).

Definition digest (m : list Z) : list Z :=
  let p := pad m in
  let '(a, b, c, d) :=
    foldl compress (1732584193, 4023233417, 2562383102, 271733878)%Z
      (Octets.blocks (length p) 64 p) in
  octets_le 4 a ++ octets_le 4 b ++ octets_le 4 c ++ octets_le 4 d.

End MD5.

(** FIPS 197 with a 256-bit key, in CBC mode. *)
Module AES.

Definition xtime (b : Z) : Z :=
  let s := Z.land (Z.shiftl b 1) 255 in
  if Z.testbit b 7 then Z.lxor s 27 else s.

(** Multiplication in GF(2^8). *)
Fixpoint gmul_go (n : nat) (a b : Z) : Z :=
  match n with
  | O => 0
  | S n =>
      Z.lxor (if Z.testbit b 0 then a else 0) (gmul_go n (xtime a) (Z.shiftr b 1))
  end.

Definition gmul (a b : Z) : Z := gmul_go 8 a b.

Fixpoint gpow (n : nat) (a : Z) : Z :=
  match n with
  | O => 1
  | S n => gmul a (gpow n a)
  end.

Definition rotl8 (b n : Z) : Z :=
  Z.land (Z.lor (Z.shiftl b n) (Z.shiftr b (8 - n))) 255.

Definition sub_byte (b : Z) : Z :=
  let i := gpow 254 b in
  Z.lxor (Z.lxor (Z.lxor (Z.lxor (Z.lxor i (rotl8 i 1)) (rotl8 i 2)) (rotl8 i 3))
            (rotl8 i 4)) 99.

Definition SBOX : list Z :=
  Eval vm_compute in sub_byte <$> (Z.of_nat <$> seq 0 256).

Definition INV_SBOX : list Z :=
  Eval vm_compute in
    (fun y =>
       match list_find (fun x => x = Z.of_nat y) SBOX with
       | Some (i, _) => Z.of_nat i
       | None => 0%Z
       end) <$> seq 0 256.

Definition sub (b : Z) : Z := nth (Z.to_nat b) SBOX 0%Z.
Definition inv_sub (b : Z) : Z := nth (Z.to_nat b) INV_SBOX 0%Z.

(** The key schedule for Nk = 8: 60 words of four octets. *)
Definition rot_word (w : list Z) : list Z := drop 1 w ++ take 1 w.

Fixpoint expand (n i : nat) (w : list (list Z)) : list (list Z) :=
  match n with
  | O => w
  | S n =>
      let prev := nth (i - 1) w [] in
      let temp :=
        if (i mod 8 =? 0)%nat then
          Octets.xor (sub <$> rot_word prev) [gpow (i / 8 - 1) 2; 0; 0; 0]%Z
        else if (i mod 8 =? 4)%nat then sub <$> prev
        else prev in
      expand n (S i) (w ++ [Octets.xor (nth (i - 8) w []) temp])
  end.

Definition key_schedule (key : list Z) : list (list Z) :=
  Octets.blocks 15 16 (mjoin (expand 52 8 (Octets.blocks 8 4 key))).

(** The state is 16 octets, column after column. *)
Definition shift_rows (s : list Z) : list Z :=
  (fun i => nth (i mod 4 + 4 * ((i / 4 + i mod 4) mod 4)) s 0%Z) <$> seq 0 16.

Definition inv_shift_rows (s : list Z) : list Z :=
  (fun i => nth (i mod 4 + 4 * ((i / 4 + 4 - i mod 4) mod 4)) s 0%Z) <$> seq 0 16.

Definition mix_column (m : list Z) (col : list Z) : list Z :=
  (fun r =>
     foldr Z.lxor 0%Z
       (zip_with gmul (drop (4 - r) m ++ take (4 - r) m) col)) <$> seq 0 4.

Definition mix_columns (m : list Z) (s : list Z) : list Z :=
  mjoin (mix_column m <$> Octets.blocks 4 4 s).

Definition cipher (ks : list (list Z)) (block : list Z) : list Z :=
  let s := Octets.xor block (nth 0 ks []) in
  let s :=
    foldl (fun s k => Octets.xor (mix_columns [2; 3; 1; 1]%Z (shift_rows (sub <$> s))) k)
      s (take 13 (drop 1 ks)) in
  Octets.xor (shift_rows (sub <$> s)) (nth 14 ks []).

Definition inv_cipher (ks : list (list Z)) (block : list Z) : list Z :=
  let s := Octets.xor block (nth 14 ks []) in
  let s :=
    foldl (fun s k =>
             mix_columns [14; 11; 13; 9]%Z (Octets.xor (inv_sub <$> inv_shift_rows s) k))
      s (reverse (take 13 (drop 1 ks))) in
  Octets.xor (inv_sub <$> inv_shift_rows s) (nth 0 ks []).

Fixpoint cbc_encrypt (ks : list (list Z)) (prev : list Z) (bs : list (list Z))
  : list Z :=
  match bs with
  | [] => []
  | b :: bs =>
      let c := cipher ks (Octets.xor b prev) in
      c ++ cbc_encrypt ks c bs
  end.

Fixpoint cbc_decrypt (ks : list (list Z)) (prev : list Z) (bs : list (list Z))
  : list Z :=
  match bs with
  | [] => []
  | b :: bs => Octets.xor (inv_cipher ks b) prev ++ cbc_decrypt ks b bs
  end.

End AES.

(** crypto-js' Base64 encoder, its OpenSSL-compatible format and its
    passphrase-based cipher. *)
Module Base64.

Definition map : list Ascii.ascii :=
  String.list_ascii_of_string
    "ABCDEFGHIJKLMNOPQRSTUVWXYZabcdefghijklmnopqrstuvwxyz0123456789+/".

Definition char (v : Z) : Ascii.ascii := nth (Z.to_nat v) map Ascii.zero.

(** The reverse map; a character outside the alphabet reads as
    [undefined], which the shifts turn into 0. *)
Definition value (c : Ascii.ascii) : Z :=
  match list_find (fun x => x = c) map with
  | Some (i, _) => Z.of_nat i
  | None => 0
  end.

Fixpoint stringify_go (l : list Z) : list Ascii.ascii :=
  match l with
  | [] => []
  | [a] =>
      [char (Z.shiftr a 2); char (Z.land (Z.shiftl a 4) 63);
       Ascii.ascii_of_nat 61; Ascii.ascii_of_nat 61]
  | [a; b] =>
      [char (Z.shiftr a 2);
       char (Z.land (Z.lor (Z.shiftl a 4) (Z.shiftr b 4)) 63);
       char (Z.land (Z.shiftl b 2) 63); Ascii.ascii_of_nat 61]
  | a :: b :: c :: rest =>
      [char (Z.shiftr a 2);
       char (Z.land (Z.lor (Z.shiftl a 4) (Z.shiftr b 4)) 63);
       char (Z.land (Z.lor (Z.shiftl b 2) (Z.shiftr c 6)) 63);
       char (Z.land c 63)] ++ stringify_go rest
  end.

Definition stringify (l : list Z) : string :=
  String.string_of_list_ascii (stringify_go l).

(** [parseLoop]: position [i] with [i % 4 <> 0] yields one octet from the
    characters at [i - 1] and [i]. *)
Fixpoint parse_go (i : nat) (prev : Z) (cs : list Ascii.ascii) : list Z :=
  match cs with
  | [] => []
  | c :: cs =>
      let v := value c in
      let k := Z.of_nat (i mod 4) in
      let here :=
        if (i mod 4 =? 0)%nat then []
        else [Z.land (Z.lor (Z.shiftl prev (2 * k)) (Z.shiftr v (6 - 2 * k))) 255] in
      here ++ parse_go (S i) v cs
  end.

Fixpoint before_padding (cs : list Ascii.ascii) : list Ascii.ascii :=
  match cs with
  | [] => []
  | c :: cs =>
      if Ascii.eqb c (Ascii.ascii_of_nat 61) then [] else c :: before_padding cs
  end.

Definition parse (s : string) : list Z :=
  parse_go 0 0 (before_padding (String.list_ascii_of_string s)).

End Base64.

Module Utf8.

Definition between (lo hi b : Z) : bool := ((lo <=? b) && (b <=? hi))%Z.

(** Well-formed UTF-8, as [decodeURIComponent] demands. *)
Fixpoint well_formed (fuel : nat) (l : list Z) : bool :=
  match fuel with
  | O => false
  | S fuel =>
      match l with
      | [] => true
      | a :: l1 =>
          if between 0 127 a then well_formed fuel l1
          else
            match l1 with
            | [] => false
            | b :: l2 =>
                if between 194 223 a then between 128 191 b && well_formed fuel l2
                else
                  match l2 with
                  | [] => false
                  | c :: l3 =>
                      if between 224 239 a then
                        between (if (a =? 224)%Z then 160 else 128)
                          (if (a =? 237)%Z then 159 else 191) b
                        && between 128 191 c && well_formed fuel l3
                      else
                        match l3 with
                        | [] => false
                        | d :: l4 =>
                            between 240 244 a
                            && between (if (a =? 240)%Z then 144 else 128)
                                 (if (a =? 244)%Z then 143 else 191) b
                            && between 128 191 c && between 128 191 d
                            && well_formed fuel l4
                        end
                  end
            end
      end
  end.

End Utf8.

Module PasswordBasedCipher.

(** [EvpKDF] with MD5 and one iteration: 32 octets of key, 16 of IV. *)
Definition kdf (password salt : list Z) : list Z * list Z :=
  let d1 := MD5.digest (password ++ salt) in
  let d2 := MD5.digest (d1 ++ password ++ salt) in
  let d3 := MD5.digest (d2 ++ password ++ salt) in
  ((d1 ++ d2)%list, d3).

Definition salted : list Z := Octets.octets "Salted__".

(** [Pkcs7.pad] *)
Definition pad (m : list Z) : list Z :=
  let n := (16 - length m mod 16)%nat in
  (m ++ replicate n (Z.of_nat n))%list.

(** [WordArray.random(8)] gave [salt]. *)
Definition encrypt (message : string) (key : option string) (salt : string)
  : Js.Completion string :=
  match key with
  | None => Js.Thrown (Js.TypeError "Cannot read properties of undefined")
  | Some passphrase =>
      let salt := take 8 (Octets.octets salt ++ replicate 8 0%Z) in
      let '(k, iv) := kdf (Octets.octets passphrase) salt in
      let p := pad (Octets.octets message) in
      let c := AES.cbc_encrypt (AES.key_schedule k) iv (Octets.blocks (length p) 16 p) in
      Js.Normal (Base64.stringify (salted ++ salt ++ c))
  end.

(** A [WordArray]: whole words of octets, and [sigBytes]. *)
Definition WordArray : Type := list Z * Z.

(** [fresh] is the salt crypto-js draws when the ciphertext carries
    none. *)
Definition decrypt (fresh : string) (ciphertext : string) (key : option string)
  : Js.Completion WordArray :=
  match key with
  | None => Js.Thrown (Js.TypeError "Cannot read properties of undefined")
  | Some passphrase =>
      let raw := Base64.parse ciphertext in
      let words := ((length raw + 3) / 4)%nat in
      let '(salt, body, sigBytes) :=
        if bool_decide (take 8 (raw ++ replicate 8 0%Z) = salted) then
          (take (4 * (min words 4 - 2)) (drop 8 (raw ++ replicate 8 0%Z)),
           drop 16 raw, Z.of_nat (length raw) - 16)%Z
        else
          (take 8 (Octets.octets fresh ++ replicate 8 0%Z), raw,
           Z.of_nat (length raw)) in
      let '(k, iv) := kdf (Octets.octets passphrase) salt in
      let plain :=
        AES.cbc_decrypt (AES.key_schedule k) iv (Octets.blocks (length body) 16 body) in
      (* Pkcs7.unpad *)
      let nPaddingBytes :=
        if (sigBytes <=? 0)%Z then 0%Z
        else nth (4 * (Z.to_nat (sigBytes - 1) / 4) + 3) plain 0%Z in
      Js.Normal (plain, (sigBytes - nPaddingBytes)%Z)
  end.

(** [wordArray.toString(CryptoJS.enc.Utf8)] *)
Definition toString_Utf8 (wa : WordArray) : Js.Completion string :=
  let latin1 := take (Z.to_nat wa.2) wa.1 in
  if Utf8.well_formed (S (length latin1)) latin1 then
    Js.Normal (Octets.of_octets latin1)
  else Js.Thrown (Js.Err "Malformed UTF-8 data" None).

End PasswordBasedCipher.

(** crypto-js as the User model sees it. *)
Definition crypto_js (fresh : string) : CryptoJS.t :=
  CryptoJS.mk PasswordBasedCipher.WordArray PasswordBasedCipher.encrypt
    (PasswordBasedCipher.decrypt fresh) PasswordBasedCipher.toString_Utf8.

(** ** HTTP requests and responses *)

(** What the handlers read of [req] besides params, query and body:
    the principal the [protect] middleware attached, and the origin. *)
Record Request := mkRequest {
  user : User.t;
  ip : option string;
  remoteAddress : option string;
  user_agent : option string;
}.

Inductive Payload :=
| NoData
| FolderDoc (f : Folder.t)
| Link (link subject facultyName : string)
| Department (department : string)
| ErrorMessage (error : string).

Inductive Response :=
| Json (status : N) (success : bool) (message : string) (data : Payload)
| Redirect (url : string).


(** ** Collections *)

Definition documents {A} (c : gmap ObjectId A) : list A :=
  (map_to_list c).*2.

(** [User.find(query)] *)
Definition User_find (query : User.t -> bool) : M (list User.t) :=
  fun w => (Js.Normal (filter (fun u => query u = true) (documents (users w))), w).


(** [User.findById(id)] *)
Definition User_findById (id : ObjectId) : M (option User.t) :=
  fun w => (Js.Normal (users w !! id), w).

(** [Folder.findById(id)] *)
Definition Folder_findById (id : ObjectId) : M (option Folder.t) :=
  fun w => (Js.Normal (folders w !! id), w).

(** [folder.save()] *)
Definition Folder_save (f : Folder.t) : M unit :=
  fun w => (Js.Normal tt, set_folders (<[Folder._id f := f]> (folders w)) w).

(** [log.save()]; the log grows at its end. *)
Definition Log_save (l : Log.t) : M unit :=
  fun w => (Js.Normal tt, set_logs (logs w ++ [l]) w).

Section Server.

Context (process_env : Env).
Context (cryptojs : CryptoJS.t).
Context (google : Drive.provider).
Context (issuer : Issuer.t).
(** utils/jwt and the global [encodeURIComponent] *)
Context (generateToken : ObjectId -> string -> Role.t -> string).
Context (encodeURIComponent : string -> string).
(** [WordArray.random]: the salt drawn at the n-th encryption *)
Context (random : N -> string).

(** *** models/User *)

(** The [pre('save')] hook.  [modified] is
    [this.isModified('departmentCode')]. *)
Definition pre_save (modified : bool) (salt : string) (this : User.t)
  : Js.Completion User.t :=
  if modified && Js.truthy (User.departmentCode this) then
    match User.departmentCode this with
    | Some code =>
        match CryptoJS.AES_encrypt cryptojs code (ENCRYPTION_KEY process_env) salt with
        | Js.Normal c => Js.Normal (User.set_departmentCode (Some c) this)
        | Js.Thrown e => Js.Thrown e
        end
    | None => Js.Normal this
    end
  else Js.Normal this.

(** [user.save()]: the hook, then the write. *)
Definition User_save (modified : bool) (u : User.t) : M unit :=
  fun w =>
    match pre_save modified (random (entropy w)) u with
    | Js.Normal u' =>
        (Js.Normal tt,
         set_users (<[User._id u' := u']> (users w))
           (if modified && Js.truthy (User.departmentCode u)
            then set_entropy (entropy w + 1)%N w else w))
    | Js.Thrown e => (Js.Thrown e, w)
    end.

Definition getDecryptedDepartmentCode (this : User.t)
  : Js.Completion (option string) :=
  if negb (Js.truthy (User.departmentCode this)) then Js.Normal None
  else
    match User.departmentCode this with
    | Some code =>
        match CryptoJS.AES_decrypt cryptojs code (ENCRYPTION_KEY process_env) with
        | Js.Normal bytes =>
            match CryptoJS.toString_Utf8 cryptojs bytes with
            | Js.Normal s => Js.Normal (Some s)
            | Js.Thrown e => Js.Thrown e
            end
        | Js.Thrown e => Js.Thrown e
        end
    | None => Js.Normal None
    end.

(** [userSchema.methods.verifyDepartmentCode] *)
Definition User_verifyDepartmentCode (this : User.t) (code : string)
  : Js.Completion bool :=
  match getDecryptedDepartmentCode this with
  | Js.Normal decryptedCode => Js.Normal (Js.strict_eq decryptedCode code)
  | Js.Thrown e => Js.Thrown e
  end.

(** *** models/Folder *)

Definition incrementViewCount (this : Folder.t) : M Folder.t :=
  let this := Folder.set_viewCount (Folder.viewCount this + 1)%Z this in
  now ← Date_now;
  let this := Folder.set_lastAccessed (Some now) this in
  Folder_save this;;
  mret this.

(** *** utils/logger *)

Definition createLog (userId : ObjectId) (userName userEmail : string)
    (action : Action.t) (details : list (string * Detail)) (req : option Request)
  : M (option Log.t) :=
  try_catch
    (let ipAddress :=
       match req with
       | Some req => Js.or_str (Js.or (ip req) (remoteAddress req)) ""
       | None => ""
       end in
     let userAgent :=
       match req with
       | Some req => Js.or_str (user_agent req) ""
       | None => ""
       end in
     now ← Date_now;
     let log := Log.mk userId userName userEmail action details ipAddress userAgent now in
     Log_save log;;
     mret (Some log))
    (fun error =>
       console_error "Error creating log:" error;;
       mret None).

(** *** services/driveService *)

Definition setCredentials (c : Credentials) : M unit :=
  fun w => (Js.Normal tt, set_oauth2Client c w).

(** One call on the Drive client; it joins the provider's history. *)
Definition drive {A} (rq : Drive.call)
    (api : Drive.provider -> list Drive.exchange -> Credentials -> Js.Completion A)
  : M A :=
  fun w =>
    let r := api google (driveLog w) (oauth2Client w) in
    let ok := match r with Js.Normal _ => true | Js.Thrown _ => false end in
    (r, set_driveLog (driveLog w ++ [Drive.mkExchange (oauth2Client w) rq ok]) w).

Definition createFolder (folderName : string) (accessToken refreshToken : option string)
  : M DriveFolder.t :=
  try_catch
    (setCredentials (mkCredentials accessToken refreshToken);;
     let mimeType := "application/vnd.google-apps.folder" in
     folder ← drive (Drive.FilesCreate folderName mimeType)
                (fun g h c => Drive.files_create g h c folderName);
     mret (DriveFolder.mk (Drive.id folder) (Drive.name folder)
             (Drive.webViewLink folder)))
    (fun error =>
       console_error "Error creating folder:" error;;
       throw (Js.Err "Failed to create folder in Google Drive" None)).

(** [permissionMap[permission] || 'reader'] (own keys only) *)
Definition permissionMap (permission : string) : string :=
  if String.eqb permission "view" then "reader"
  else if String.eqb permission "comment" then "commenter"
  else if String.eqb permission "edit" then "writer"
  else "reader".

Definition setFolderPermissions (folderId permission : string)
    (accessToken refreshToken : option string) : M bool :=
  try_catch
    (setCredentials (mkCredentials accessToken refreshToken);;
     let role := permissionMap permission in
     drive (Drive.PermissionsCreate folderId "anyone" role)
       (fun g h c => Drive.permissions_create g h c folderId role);;
     mret true)
    (fun error =>
       console_error "Error setting permissions:" error;;
       throw (Js.Err "Failed to set folder permissions" None)).

Definition deleteFolder (folderId : string) (accessToken refreshToken : option string)
  : M bool :=
  try_catch
    (setCredentials (mkCredentials accessToken refreshToken);;
     drive (Drive.FilesDelete folderId)
       (fun g h c => Drive.files_delete g h c folderId);;
     mret true)
    (fun error =>
       console_error "Error deleting folder:" error;;
       throw (Js.Err "Failed to delete folder from Google Drive" None)).

Definition checkFolderExists (folderId : string) (accessToken refreshToken : option string)
  : M bool :=
  try_catch
    (setCredentials (mkCredentials accessToken refreshToken);;
     response ← drive (Drive.FilesGet folderId)
                  (fun g h c => Drive.files_get g h c folderId);
     mret (negb (Drive.trashed response)))
    (fun error =>
       if bool_decide (Js.code error = Some 404%N) then mret false
       else
         console_error "Error checking folder:" error;;
         mret false).

Definition getFolderDetails (folderId : string) (accessToken refreshToken : option string)
  : M Drive.file :=
  try_catch
    (setCredentials (mkCredentials accessToken refreshToken);;
     drive (Drive.FilesGet folderId)
       (fun g h c => Drive.files_get g h c folderId))
    (fun error =>
       console_error "Error getting folder details:" error;;
       throw (Js.Err "Failed to get folder details" None)).

(** *** controllers/studentController *)

(** The scan of [verifyDepartmentCode]: true at the first faculty whose
    decrypted code is the candidate; a faculty whose code cannot be
    decrypted is skipped. *)
Fixpoint isValid (faculties : list User.t) (departmentCode : string) : bool :=
  match faculties with
  | [] => false
  | faculty :: rest =>
      match getDecryptedDepartmentCode faculty with
      | Js.Normal decryptedCode =>
          if Js.strict_eq decryptedCode departmentCode then true
          else isValid rest departmentCode
      | Js.Thrown _ => isValid rest departmentCode
      end
  end.

Definition activeFacultyOf (department : string) (u : User.t) : bool :=
  bool_decide (User.role u = Role.faculty)
  && bool_decide (User.department u = Some department)
  && User.isActive u.

Definition verifyDepartmentCode (req : Request) (departmentCode department : string)
  : M Response :=
  try_catch
    (faculties ← User_find (activeFacultyOf department);
     if (length faculties =? 0)%nat then
       mret (Json 404 false "No faculty found for this department" NoData)
     else if negb (isValid faculties departmentCode) then
       mret (Json 401 false "Invalid department code" NoData)
     else
       (if negb (Js.truthy (User.department (user req)))
           || Js.strict_eq (User.department (user req)) ""
        then
          found ← User_findById (User._id (user req));
          student ← deref found;
          User_save false (User.set_department (Some department) student)
        else mret tt);;
       mret (Json 200 true "Department code verified successfully"
               (Department department)))
    (fun error =>
       mret (Json 500 false "Error verifying department code"
               (ErrorMessage (Js.message error)))).

Definition accessFolder (req : Request) (folderId : ObjectId) : M Response :=
  try_catch
    (found ← Folder_findById folderId;
     match found with
     | None => mret (Json 404 false "Folder not found" NoData)
     | Some folder =>
         if negb (Folder.isActive folder) then
           mret (Json 400 false "This folder is no longer available" NoData)
         else
           folder ← incrementViewCount folder;
           createLog (User._id (user req)) (User.name (user req))
             (User.email (user req)) Action.view_folder
             [("folderId", DId (Folder._id folder));
              ("subject", DStr (Folder.subject folder));
              ("department", DStr (Folder.department folder));
              ("semester", DNum (Folder.semester folder))]
             (Some req);;
           mret (Json 200 true "Folder accessed"
                   (Link (Folder.driveFolderLink folder) (Folder.subject folder)
                      (Folder.facultyName folder)))
     end)
    (fun error =>
       mret (Json 500 false "Error accessing folder"
               (ErrorMessage (Js.message error)))).

(** *** controllers/folderController *)

Definition createNewFolder (req : Request) (department : string) (semester : Z)
    (subject : string) (permissions description : option string) : M Response :=
  try_catch
    (found ← User_findById (User._id (user req));
     faculty ← deref found;
     let tokens := User.googleTokens faculty in
     if negb (Js.truthy (GoogleTokens.accessToken tokens)) then
       mret (Json 400 false
               "Google Drive not connected. Please reconnect your account." NoData)
     else
       let folderName :=
         (department ++ "_SEM" ++ pretty semester ++ "_" ++ subject)%string in
       driveFolder ← createFolder folderName (GoogleTokens.accessToken tokens)
                       (GoogleTokens.refreshToken tokens);
       setFolderPermissions (DriveFolder.id driveFolder) (Js.or_str permissions "view")
         (GoogleTokens.accessToken tokens) (GoogleTokens.refreshToken tokens);;
       oid ← new_ObjectId;
       let folder :=
         Folder.mk oid (User._id faculty) (User.name faculty) (User.email faculty)
           department semester subject (DriveFolder.id driveFolder)
           (DriveFolder.link driveFolder) (Js.or_str permissions "view")
           (Js.or_str description "") true 0 None in
       Folder_save folder;;
       createLog (User._id faculty) (User.name faculty) (User.email faculty)
         Action.create_folder
         [("folderId", DId (Folder._id folder));
          ("department", DStr department);
          ("semester", DNum semester);
          ("subject", DStr subject)]
         (Some req);;
       mret (Json 201 true "Folder created successfully" (FolderDoc folder)))
    (fun error =>
       console_error "Create folder error:" error;;
       mret (Json 500 false "Error creating folder"
               (ErrorMessage (Js.message error)))).

Definition deleteFolderById (req : Request) (id : ObjectId) : M Response :=
  try_catch
    (found ← Folder_findById id;
     match found with
     | None => mret (Json 404 false "Folder not found" NoData)
     | Some folder =>
         if negb (Folder.facultyId folder =? User._id (user req))%N then
           mret (Json 403 false "Not authorized to delete this folder" NoData)
         else
           faculty ← User_findById (User._id (user req));
           try_catch
             (owner ← deref faculty;
              deleteFolder (Folder.driveFolderId folder)
                (GoogleTokens.accessToken (User.googleTokens owner))
                (GoogleTokens.refreshToken (User.googleTokens owner));;
              mret tt)
             (fun error => console_error "Error deleting from Drive:" error);;
           let folder := Folder.set_isActive false folder in
           Folder_save folder;;
           owner ← deref faculty;
           createLog (User._id owner) (User.name owner) (User.email owner)
             Action.delete_folder
             [("folderId", DId (Folder._id folder));
              ("subject", DStr (Folder.subject folder))]
             (Some req);;
           mret (Json 200 true "Folder deleted successfully" NoData)
     end)
    (fun error =>
       mret (Json 500 false "Error deleting folder"
               (ErrorMessage (Js.message error)))).

Definition updateFolder (req : Request) (id : ObjectId)
    (subject permissions description : option string) : M Response :=
  try_catch
    (found ← Folder_findById id;
     match found with
     | None => mret (Json 404 false "Folder not found" NoData)
     | Some folder =>
         if negb (Folder.facultyId folder =? User._id (user req))%N then
           mret (Json 403 false "Not authorized to update this folder" NoData)
         else
           let folder :=
             match subject with
             | Some s => if Js.truthy subject then Folder.set_subject s folder else folder
             | None => folder
             end in
           let folder :=
             match description with
             | Some d => Folder.set_description d folder
             | None => folder
             end in
           folder ←
             match permissions with
             | Some p =>
                 if Js.truthy permissions
                    && negb (String.eqb p (Folder.permissions folder))
                 then
                   found ← User_findById (User._id (user req));
                   faculty ← deref found;
                   setFolderPermissions (Folder.driveFolderId folder) p
                     (GoogleTokens.accessToken (User.googleTokens faculty))
                     (GoogleTokens.refreshToken (User.googleTokens faculty));;
                   mret (Folder.set_permissions p folder)
                 else mret folder
             | None => mret folder
             end;
           Folder_save folder;;
           mret (Json 200 true "Folder updated successfully" (FolderDoc folder))
     end)
    (fun error =>
       mret (Json 500 false "Error updating folder"
               (ErrorMessage (Js.message error)))).

(** *** controllers/adminController *)

Definition updateDepartmentCode (req : Request) (id : ObjectId)
    (departmentCode : option string) : M Response :=
  try_catch
    (found ← User_findById id;
     match found with
     | None => mret (Json 404 false "Faculty not found" NoData)
     | Some faculty =>
         if negb (bool_decide (User.role faculty = Role.faculty)) then
           mret (Json 400 false "User is not a faculty member" NoData)
         else
           let modified :=
             negb (bool_decide (User.departmentCode faculty = departmentCode)) in
           User_save modified (User.set_departmentCode departmentCode faculty);;
           createLog (User._id (user req)) (User.name (user req))
             (User.email (user req)) Action.update_department_code
             [("facultyId", DId (User._id faculty));
              ("facultyName", DStr (User.name faculty))]
             (Some req);;
           mret (Json 200 true "Department code updated successfully" NoData)
     end)
    (fun error =>
       mret (Json 500 false "Error updating department code"
               (ErrorMessage (Js.message error)))).

(** *** config/googleAuth *)


Definition refreshAccessToken (refreshToken : option string) : M Issuer.tokens :=
  setCredentials (mkCredentials None refreshToken);;
  c ← (fun w => (Js.Normal (oauth2Client w), w));
  complete (Issuer.refreshAccessToken issuer c).


(** *** controllers/authController *)





End Server.

(** ** Concurrent accesses

    Node runs one continuation at a time and a handler gives way at each
    [await].  An [accessFolder] call is therefore a sequence of atomic
    steps, and calls in flight interleave step by step. *)
Module Concurrent.

(** Where a call stands. *)
Inductive pc :=
| Start                          (* about to issue Folder.findById *)
| Found (found : option Folder.t)  (* findById has resolved *)
| Saving (folder : Folder.t)     (* incremented in memory, save() issued *)
| Logging (folder : Folder.t)    (* save has resolved, createLog issued *)
| Done (res : Response).

Record call := mkCall {
  request : Request;
  folderId : ObjectId;
  at_pc : pc;
}.

Definition goto (p : pc) (c : call) : call :=
  mkCall (request c) (folderId c) p.

(** The next atomic step of a call. *)
Definition advance (c : call) (w : World) : call * World :=
  let req := request c in
  match at_pc c with
  | Start => (goto (Found (folders w !! folderId c)) c, w)
  | Found None =>
      (goto (Done (Json 404 false "Folder not found" NoData)) c, w)
  | Found (Some folder) =>
      if negb (Folder.isActive folder) then
        (goto (Done (Json 400 false "This folder is no longer available" NoData)) c, w)
      else
        let folder := Folder.set_viewCount (Folder.viewCount folder + 1)%Z folder in
        let folder := Folder.set_lastAccessed (Some (clock w)) folder in
        (goto (Saving folder) c, w)
  | Saving folder => (goto (Logging folder) c, (Folder_save folder w).2)
  | Logging folder =>
      let w' :=
        (createLog (User._id (user req)) (User.name (user req))
           (User.email (user req)) Action.view_folder
           [("folderId", DId (Folder._id folder));
            ("subject", DStr (Folder.subject folder));
            ("department", DStr (Folder.department folder));
            ("semester", DNum (Folder.semester folder))]
           (Some req) w).2 in
      (goto (Done (Json 200 true "Folder accessed"
                     (Link (Folder.driveFolderLink folder) (Folder.subject folder)
                        (Folder.facultyName folder)))) c, w')
  | Done _ => (c, w)
  end.

(** A call run alone, to its response. *)
Fixpoint alone (fuel : nat) (c : call) (w : World) : call * World :=
  match fuel with
  | O => (c, w)
  | S fuel => let '(c', w') := advance c w in alone fuel c' w'
  end.

(** What the event loop does next: let time pass, or resume call [i]. *)
Inductive event :=
| Tick
| Resume (i : nat).

Definition exec1 (st : World * list call) (e : event) : World * list call :=
  let '(w, calls) := st in
  match e with
  | Tick => (set_clock (clock w + 1)%Z w, calls)
  | Resume i =>
      match calls !! i with
      | Some c => let '(c', w') := advance c w in (w', <[i := c']> calls)
      | None => (w, calls)
      end
  end.

Definition exec (schedule : list event) (st : World * list call)
  : World * list call :=
  foldl exec1 st schedule.


(** The calls whose save has reached the store. *)
Definition saved (c : call) : bool :=
  match at_pc c with
  | Logging _ | Done _ => true
  | _ => false
  end.


Definition viewCount_of (id : ObjectId) (w : World) : option Z :=
  Folder.viewCount <$> folders w !! id.

End Concurrent.

(** ** A small deployment, for concrete runs *)
Module Scenario.

Definition env : Env :=
  mkEnv (Some "k1") (Some "admin@college.edu") "http://localhost:3000".

(** ["CSE2024ABC"] under the passphrase ["k1"] with the salt ["saltsalt"]. *)
Definition sealed : string := "U2FsdGVkX19zYWx0c2FsdImoA/rvyxj3VQh7BT14FbU=".

Definition alice : User.t :=
  User.mk 1%N "Alice" "alice@college.edu" "g-1" Role.faculty (Some "CSE")
    (Some sealed) ""
    (GoogleTokens.mk (Some "at-alice") (Some "rt-alice") (Some 1000%Z)) true 0.

Definition bob : User.t :=
  User.mk 2%N "Bob" "bob@college.edu" "g-2" Role.faculty (Some "ECE")
    (Some "not base64 at all") ""
    (GoogleTokens.mk (Some "at-bob") (Some "rt-bob") (Some 1000%Z)) true 0.

Definition carol : User.t :=
  User.mk 3%N "Carol" "carol@college.edu" "g-3" Role.student None None ""
    (GoogleTokens.mk (Some "at-carol") None (Some 1000%Z)) true 0.

Definition dave : User.t :=
  User.mk 4%N "Dave" "dave@college.edu" "g-4" Role.student (Some "ECE") None ""
    (GoogleTokens.mk (Some "at-dave") None (Some 1000%Z)) true 0.

Definition root : User.t :=
  User.mk 5%N "Root" "admin@college.edu" "g-0" Role.admin None None ""
    (GoogleTokens.mk (Some "at-root") None (Some 1000%Z)) true 0.

Definition notes : Folder.t :=
  Folder.mk 10%N 1%N "Alice" "alice@college.edu" "CSE" 3 "Data Structures" "drv-1"
    "https://drive.google.com/drive/folders/drv-1" "view" "" true 5 None.

Definition retired : Folder.t :=
  Folder.mk 11%N 1%N "Alice" "alice@college.edu" "CSE" 4 "Compilers" "drv-2"
    "https://drive.google.com/drive/folders/drv-2" "view" "" false 7 (Some 40%Z).

Definition world : World :=
  mkWorld
    (list_to_map [(1%N, alice); (2%N, bob); (3%N, carol); (4%N, dave); (5%N, root)])
    (list_to_map [(10%N, notes); (11%N, retired)])
    [] (mkCredentials None None) [] [] 100 12%N 0.

Definition from (u : User.t) : Request :=
  mkRequest u (Some "10.0.0.7") None (Some "Mozilla/5.0").

(** A provider that accepts every call, and one that rejects every call. *)
Definition online : Drive.provider :=
  Drive.mkProvider
    (fun h _ name =>
       Js.Normal (Drive.mkFile ("drv-" ++ pretty (length h)) name
                    ("https://drive.google.com/drive/folders/drv-"
                     ++ pretty (length h)) false))
    (fun _ _ _ _ => Js.Normal tt)
    (fun _ _ _ => Js.Normal tt)
    (fun _ _ fileId => Js.Normal (Drive.mkFile fileId "" "" false)).

Definition offline : Drive.provider :=
  Drive.mkProvider
    (fun _ _ _ => Js.Thrown (Js.Err "socket hang up" (Some 503%N)))
    (fun _ _ _ _ => Js.Thrown (Js.Err "socket hang up" (Some 503%N)))
    (fun _ _ _ => Js.Thrown (Js.Err "socket hang up" (Some 503%N)))
    (fun _ _ _ => Js.Thrown (Js.Err "socket hang up" (Some 503%N))).

(** A provider that creates folders but refuses to share them. *)
Definition unsharing : Drive.provider :=
  Drive.mkProvider (Drive.files_create online)
    (fun _ _ _ _ => Js.Thrown (Js.Err "insufficientPermissions" (Some 403%N)))
    (Drive.files_delete online) (Drive.files_get online).



Definition visitor : Request :=
  mkRequest carol (Some "10.0.0.9") None None.

End Scenario.

(** * The vocabulary of the properties *)

(** [u] is an active faculty principal of [department] in [w]. *)
Definition activeFaculty (w : World) (department : string) (u : User.t) : Prop :=
  (exists id, users w !! id = Some u)
  /\ User.role u = Role.faculty
  /\ User.department u = Some department
  /\ User.isActive u = true.

(** The stored secret of [u] decrypts to exactly [code]. *)
Definition holdsCode (process_env : Env) (cryptojs : CryptoJS.t) (u : User.t)
    (code : string) : Prop :=
  getDecryptedDepartmentCode process_env cryptojs u = Js.Normal (Some code).

(** Each document is stored under its own [_id]. *)
Definition well_keyed (w : World) : Prop :=
  map_Forall (fun id f => Folder._id f = id) (folders w)
  /\ map_Forall (fun id u => User._id u = id) (users w).

#[global] Instance well_keyed_dec w : Decision (well_keyed w).
Proof. unfold well_keyed. apply _. Defined.

Ltac step_M :=
  unfold try_catch, deref, throw, complete, console_error, Date_now,
    new_ObjectId, Folder_findById, User_findById, Folder_save, Log_save,
    setCredentials, drive;
  unfold mbind, M_bind, mret, M_ret; cbn beta iota.



Definition acceptedBy {A} (r : Js.Completion A) : bool :=
  match r with
  | Js.Normal _ => true
  | Js.Thrown _ => false
  end.

(** The world after a gateway function has put [creds] on the shared client
    and the provider has answered [rq]. *)
Definition called (creds : Credentials) (rq : Drive.call) (ok : bool) (w : World)
  : World :=
  set_driveLog (driveLog w ++ [Drive.mkExchange creds rq ok])
    (set_oauth2Client creds w).

Definition complained (label : string) (e : Js.Error) (w : World) : World :=
  set_console (console w ++ [(label, e)]) w.

(** The audit entry [deleteFolderById] writes. *)
Definition delete_entry (req : Request) (owner : User.t) (folder : Folder.t)
    (now : Z) : Log.t :=
  Log.mk (User._id owner) (User.name owner) (User.email owner)
    Action.delete_folder
    [("folderId", DId (Folder._id folder));
     ("subject", DStr (Folder.subject folder))]
    (Js.or_str (Js.or (ip req) (remoteAddress req)) "")
    (Js.or_str (user_agent req) "") now.

Definition credentialsOf (u : User.t) : Credentials :=
  mkCredentials (GoogleTokens.accessToken (User.googleTokens u))
    (GoogleTokens.refreshToken (User.googleTokens u)).

(** The subject and description edits of [updateFolder]. *)
Definition edited (subject description : option string) (folder : Folder.t)
  : Folder.t :=
  let folder :=
    match subject with
    | Some s => if Js.truthy subject then Folder.set_subject s folder else folder
    | None => folder
    end in
  match description with
  | Some d => Folder.set_description d folder
  | None => folder
  end.

(** The record [createNewFolder] saves and the audit entry it writes. *)
Definition created (oid : ObjectId) (faculty : User.t) (department : string)
    (semester : Z) (subject : string) (permissions description : option string)
    (file : Drive.file) : Folder.t :=
  Folder.mk oid (User._id faculty) (User.name faculty) (User.email faculty)
    department semester subject (Drive.id file) (Drive.webViewLink file)
    (Js.or_str permissions "view") (Js.or_str description "") true 0 None.

Definition create_entry (req : Request) (faculty : User.t) (folder : Folder.t)
    (now : Z) : Log.t :=
  Log.mk (User._id faculty) (User.name faculty) (User.email faculty)
    Action.create_folder
    [("folderId", DId (Folder._id folder));
     ("department", DStr (Folder.department folder));
     ("semester", DNum (Folder.semester folder));
     ("subject", DStr (Folder.subject folder))]
    (Js.or_str (Js.or (ip req) (remoteAddress req)) "")
    (Js.or_str (user_agent req) "") now.




Import Concurrent.

(** [n] calls on folder [id], none of them started. *)
Definition fresh_calls (reqs : list Request) (id : ObjectId) : list call :=
  (fun req => mkCall req id Start) <$> reqs.

Definition saved_count (calls : list call) : Z :=
  Z.of_nat (length (filter (fun c => saved c = true) calls)).




(** Two calls that both read before either saves. *)
Definition overlapping : list event :=
  [Resume 0; Resume 1; Resume 0; Resume 1; Resume 0; Resume 1; Resume 0; Resume 1].

(** The environment in which [key] is the configured encryption key. *)
Definition keyed (key : string) : Env := mkEnv (Some key) None "".

(** The claim about a key other than the encryption key, for a crypto
    library [lib]: decrypting what was encrypted under [key] fails under
    any other key. *)
Definition wrong_key_fails (lib : CryptoJS.t) : Prop :=
  forall (secret key key' salt : string) (u u' : User.t),
    secret <> "" ->
    key' <> key ->
    User.departmentCode u = Some secret ->
    pre_save (keyed key) lib true salt u = Js.Normal u' ->
    exists e, getDecryptedDepartmentCode (keyed key') lib u' = Js.Thrown e.

(** A faculty principal about to save the secret ["CSE2024ABC"]. *)
Definition unsealed : User.t :=
  User.set_departmentCode (Some "CSE2024ABC") Scenario.alice.

(** The vocabulary of the crypto-js proofs. *)

Definition octet (b : Z) : Prop := (0 <= b < 256)%Z.

Create HintDb octets.

Ltac explode s H :=
  destruct s as [|? [|? [|? [|? [|? [|? [|? [|? [|? [|? [|? [|? [|? [|? [|? [|? [|]]]]]]]]]]]]]]]]];
  try (simpl in H; discriminate H).

Ltac octets_of H :=
  repeat match type of H with
         | Forall octet (_ :: _) =>
             let Hx := fresh "Ho" in
             apply Forall_cons in H as [Hx H]
         end.

Ltac forall_octets :=
  repeat (apply Forall_cons_2; [solve [auto 12 with octets]|]); apply Forall_nil_2.

Definition all_octets (P : Z -> bool) : bool :=
  forallb P (Z.of_nat <$> seq 0 256).

Definition is_octet (b : Z) : bool := ((0 <=? b) && (b <? 256))%Z.

(** A column of the state, as a list of four octets. *)
Definition aes_column (a b c d : Z) : list Z := [a; b; c; d].

Definition unmix (col : list Z) : list Z :=
  AES.mix_column [14; 11; 13; 9]%Z (AES.mix_column [2; 3; 1; 1]%Z col).

(** The 16 octets AES works on. *)
Definition aes_state (s : list Z) : Prop := length s = 16%nat /\ Forall octet s.

Definition aes_round (s k : list Z) : list Z :=
  Octets.xor (AES.mix_columns [2; 3; 1; 1]%Z (AES.shift_rows (AES.sub <$> s))) k.

Definition aes_inv_round (s k : list Z) : list Z :=
  AES.mix_columns [14; 11; 13; 9]%Z
    (Octets.xor (AES.inv_sub <$> AES.inv_shift_rows s) k).

(** The 15 round keys. *)
Definition round_keys (ks : list (list Z)) : Prop :=
  length ks = 15%nat /\ Forall aes_state ks.

(** The words of the key schedule of a 32-octet key. *)
Definition key_word (w : list Z) : Prop := length w = 4%nat /\ Forall octet w.

(** CBC over whole blocks. *)
Fixpoint cbc_chain (ks : list (list Z)) (prev : list Z) (bs : list (list Z))
  : list (list Z) :=
  match bs with
  | [] => []
  | b :: bs =>
      let c := AES.cipher ks (Octets.xor b prev) in
      c :: cbc_chain ks c bs
  end.

(** Base64. *)
Definition sextet (v : Z) : Prop := (0 <= v < 64)%Z.

(** The octet [parseLoop] produces at a position with [i % 4 = k]. *)
Definition parsed (k prev v : Z) : Z :=
  Z.land (Z.lor (Z.shiftl prev (2 * k)) (Z.shiftr v (6 - 2 * k))) 255.

(** * Properties *)

(** ** softDelete by somebody else *)

(** C6. [deleteFolderById] answers 403 whenever the requester is not the
    folder's owner, and then the world is the one it started from: the
    folder record, the provider's call history and the audit log are
    untouched. *)
Theorem deleteFolderById_not_owner google (req : Request) (id : ObjectId)
    (w : World) (folder : Folder.t) :
  folders w !! id = Some folder ->
  Folder.facultyId folder <> User._id (user req) ->
  deleteFolderById google req id w
  = (Js.Normal (Json 403 false "Not authorized to delete this folder" NoData), w).
Proof.
  intros Hf Hne. unfold deleteFolderById. step_M. rewrite Hf.
  destruct (N.eqb_spec (Folder.facultyId folder) (User._id (user req))) as [E|_];
    [contradiction|]. reflexivity.
Qed.

(** ** General facts about the model *)

Lemma elem_of_documents {A} (c : gmap ObjectId A) (x : A) :
  x ∈ documents c <-> exists id, c !! id = Some x.
Proof.
  unfold documents. rewrite list_elem_of_fmap. split.
  - intros [[id y] [-> H]]. exists id. by apply elem_of_map_to_list.
  - intros [id H]. exists (id, x). split; [done|]. by apply elem_of_map_to_list.
Qed.

Lemma strict_eq_true (a : option string) (b : string) :
  Js.strict_eq a b = true <-> a = Some b.
Proof.
  destruct a as [s|]; simpl.
  - rewrite String.eqb_eq. split; congruence.
  - split; discriminate.
Qed.

(** [createLog] always writes its entry: the collection does not refuse
    it, so the [catch] branch is never taken. *)
Lemma createLog_appends userId userName userEmail action details req w :
  exists entry,
    createLog userId userName userEmail action details (Some req) w
    = (Js.Normal (Some entry), set_logs (logs w ++ [entry]) w)
    /\ entry
       = Log.mk userId userName userEmail action details
           (Js.or_str (Js.or (ip req) (remoteAddress req)) "")
           (Js.or_str (user_agent req) "") (clock w).
Proof. eexists. split; reflexivity. Qed.

(** ** AccessGate: the department code *)

Section AccessGate.

Context (process_env : Env) (cryptojs : CryptoJS.t) (random : N -> string).

Lemma activeFacultyOf_spec w department u :
  u ∈ filter (fun u => activeFacultyOf department u = true) (documents (users w))
  <-> activeFaculty w department u.
Proof.
  rewrite list_elem_of_filter, elem_of_documents.
  unfold activeFacultyOf, activeFaculty.
  rewrite !andb_true_iff, !bool_decide_eq_true. tauto.
Qed.

Lemma isValid_spec faculties code :
  isValid process_env cryptojs faculties code = true
  <-> exists u, u ∈ faculties /\ holdsCode process_env cryptojs u code.
Proof.
  unfold holdsCode. induction faculties as [|f rest IH]; simpl.
  - split; [discriminate|]. intros [u [H _]]. by apply elem_of_nil in H.
  - destruct (getDecryptedDepartmentCode process_env cryptojs f) as [d|e] eqn:E.
    + destruct (Js.strict_eq d code) eqn:S.
      * split; [|done]. intros _. exists f. split; [left|].
        apply strict_eq_true in S. by rewrite E, S.
      * rewrite IH. split.
        -- intros [u [Hin Hu]]. exists u. split; [by right|done].
        -- intros [u [Hin Hu]]. apply elem_of_cons in Hin as [->|Hin].
           ++ rewrite E in Hu. injection Hu as ->.
              assert (Js.strict_eq (Some code) code = true) by by apply strict_eq_true.
              congruence.
           ++ by exists u.
    + rewrite IH. split.
      * intros [u [Hin Hu]]. exists u. split; [by right|done].
      * intros [u [Hin Hu]]. apply elem_of_cons in Hin as [->|Hin]; [congruence|].
        by exists u.
Qed.

(** C1. For a requester that is a stored principal, [verifyDepartmentCode]
    answers 200 exactly when some active faculty principal of the given
    department holds a stored secret that decrypts to the candidate code
    (string equality, hence case-sensitive); it answers 404 exactly when
    the department has no active faculty, and 401 exactly when it has
    some but none of them holds the code.  The three answers differ. *)
Theorem verifyDepartmentCode_outcome (req : Request) (code department : string)
    (w : World) :
  is_Some (users w !! User._id (user req)) ->
  exists res,
    (verifyDepartmentCode process_env cryptojs random req code department w).1
    = Js.Normal res
    /\ (res = Json 200 true "Department code verified successfully"
                (Department department)
        <-> exists u, activeFaculty w department u /\ holdsCode process_env cryptojs u code)
    /\ (res = Json 404 false "No faculty found for this department" NoData
        <-> ~ exists u, activeFaculty w department u)
    /\ (res = Json 401 false "Invalid department code" NoData
        <-> (exists u, activeFaculty w department u)
            /\ ~ exists u, activeFaculty w department u /\ holdsCode process_env cryptojs u code).
Proof.
  intros [student Hs].
  unfold verifyDepartmentCode, User_find. step_M.
  set (faculties := filter _ _).
  assert (Hmem : forall u, u ∈ faculties <-> activeFaculty w department u)
    by (intros u; apply activeFacultyOf_spec).
  assert (Hvalid := isValid_spec faculties code).
  destruct (Nat.eqb_spec (length faculties) 0) as [Hlen|Hlen].
  - apply nil_length_inv in Hlen.
    assert (Hnone : ~ exists u, activeFaculty w department u).
    { intros [u Hu]. apply Hmem in Hu. rewrite Hlen in Hu. by apply elem_of_nil in Hu. }
    eexists. split; [reflexivity|]. repeat split; try discriminate; try done.
    + intros [u [Hu _]]. destruct Hnone. by exists u.
    + intros [Hsome _]. contradiction.
  - assert (Hsome : exists u, activeFaculty w department u).
    { destruct faculties as [|u rest]; [done|]. exists u. apply Hmem. left. }
    destruct (isValid process_env cryptojs faculties code) eqn:V; simpl.
    + assert (Hmatch : exists u, activeFaculty w department u /\ holdsCode process_env cryptojs u code).
      { destruct Hvalid as [Hv _]. destruct (Hv eq_refl) as [u [Hin Hu]].
        exists u. split; [by apply Hmem|done]. }
      unfold User_findById, User_save, pre_save. step_M.
      destruct (_ || _); cbn; rewrite ?Hs; cbn;
        (eexists; split; [reflexivity|]; split; [|split]; split; intros;
         try discriminate; try tauto; done).
    + assert (Hnone : ~ exists u, activeFaculty w department u /\ holdsCode process_env cryptojs u code).
      { intros [u [Hu Hc]]. destruct Hvalid as [_ Hv].
        assert (false = true); [|discriminate].
        apply Hv. exists u. split; [by apply Hmem|done]. }
      eexists; split; [reflexivity|]; split; [|split]; split; intros;
        try discriminate; try tauto; done.
Qed.

End AccessGate.

(** The scenario of the specification: the secret ["CSE2024ABC"] is
    accepted, the same letters in lower case are not, and a department
    without faculty is told apart from a wrong code. *)
Example verify_CSE2024ABC :
  (verifyDepartmentCode Scenario.env (crypto_js "") (fun _ => "")
     Scenario.visitor "CSE2024ABC" "CSE" Scenario.world).1
  = Js.Normal (Json 200 true "Department code verified successfully"
                 (Department "CSE"))
  /\ (verifyDepartmentCode Scenario.env (crypto_js "") (fun _ => "")
        Scenario.visitor "cse2024abc" "CSE" Scenario.world).1
     = Js.Normal (Json 401 false "Invalid department code" NoData)
  /\ (verifyDepartmentCode Scenario.env (crypto_js "") (fun _ => "")
        Scenario.visitor "CSE2024ABC" "MECH" Scenario.world).1
     = Js.Normal (Json 404 false "No faculty found for this department" NoData).
Proof. by vm_compute. Qed.

Lemma verifyDepartmentCode_outcome_witness :
  is_Some (users Scenario.world !! User._id (user Scenario.visitor))
  /\ exists res,
      (verifyDepartmentCode Scenario.env (crypto_js "") (fun _ => "")
         Scenario.visitor "CSE2024ABC" "CSE" Scenario.world).1
      = Js.Normal res
      /\ (res = Json 200 true "Department code verified successfully"
                  (Department "CSE")
          <-> exists u, activeFaculty Scenario.world "CSE" u
                        /\ holdsCode Scenario.env (crypto_js "") u "CSE2024ABC")
      /\ (res = Json 404 false "No faculty found for this department" NoData
          <-> ~ exists u, activeFaculty Scenario.world "CSE" u)
      /\ (res = Json 401 false "Invalid department code" NoData
          <-> (exists u, activeFaculty Scenario.world "CSE" u)
              /\ ~ exists u, activeFaculty Scenario.world "CSE" u
                             /\ holdsCode Scenario.env (crypto_js "") u "CSE2024ABC").
Proof.
  split.
  - vm_compute. eexists. reflexivity.
  - apply (verifyDepartmentCode_outcome Scenario.env (crypto_js "") (fun _ => "")
             Scenario.visitor "CSE2024ABC" "CSE" Scenario.world).
    vm_compute. eexists. reflexivity.
Defined.



(** ** AccessGate: opening a folder *)



(** ** FolderLifecycleManager *)

Lemma deleteFolderById_not_owner_witness :
  folders Scenario.world !! 10%N = Some Scenario.notes
  /\ Folder.facultyId Scenario.notes <> User._id (user (Scenario.from Scenario.bob))
  /\ deleteFolderById Scenario.online (Scenario.from Scenario.bob) 10%N Scenario.world
     = (Js.Normal (Json 403 false "Not authorized to delete this folder" NoData),
        Scenario.world).
Proof.
  assert (H1 : folders Scenario.world !! 10%N = Some Scenario.notes) by reflexivity.
  assert (H2 : Folder.facultyId Scenario.notes
               <> User._id (user (Scenario.from Scenario.bob))) by (vm_compute; discriminate).
  split; [exact H1|]. split; [exact H2|].
  exact (deleteFolderById_not_owner Scenario.online (Scenario.from Scenario.bob)
           10%N Scenario.world Scenario.notes H1 H2).
Defined.

(** The gateway functions, in one step each. *)

Lemma setFolderPermissions_run google folderId permission accessToken refreshToken w :
  let creds := mkCredentials accessToken refreshToken in
  let rq := Drive.PermissionsCreate folderId "anyone" (permissionMap permission) in
  setFolderPermissions google folderId permission accessToken refreshToken w
  = match Drive.permissions_create google (driveLog w) creds folderId
            (permissionMap permission) with
    | Js.Normal _ => (Js.Normal true, called creds rq true w)
    | Js.Thrown e =>
        (Js.Thrown (Js.Err "Failed to set folder permissions" None),
         complained "Error setting permissions:" e (called creds rq false w))
    end.
Proof.
  unfold setFolderPermissions. step_M. cbn.
  destruct (Drive.permissions_create _ _ _ _ _); reflexivity.
Qed.

Lemma deleteFolder_run google folderId accessToken refreshToken w :
  let creds := mkCredentials accessToken refreshToken in
  let rq := Drive.FilesDelete folderId in
  deleteFolder google folderId accessToken refreshToken w
  = match Drive.files_delete google (driveLog w) creds folderId with
    | Js.Normal _ => (Js.Normal true, called creds rq true w)
    | Js.Thrown e =>
        (Js.Thrown (Js.Err "Failed to delete folder from Google Drive" None),
         complained "Error deleting folder:" e (called creds rq false w))
    end.
Proof.
  unfold deleteFolder. step_M. cbn.
  destruct (Drive.files_delete _ _ _ _); reflexivity.
Qed.

Lemma createFolder_run google folderName accessToken refreshToken w :
  let creds := mkCredentials accessToken refreshToken in
  let rq := Drive.FilesCreate folderName "application/vnd.google-apps.folder" in
  createFolder google folderName accessToken refreshToken w
  = match Drive.files_create google (driveLog w) creds folderName with
    | Js.Normal file =>
        (Js.Normal (DriveFolder.mk (Drive.id file) (Drive.name file)
                      (Drive.webViewLink file)),
         called creds rq true w)
    | Js.Thrown e =>
        (Js.Thrown (Js.Err "Failed to create folder in Google Drive" None),
         complained "Error creating folder:" e (called creds rq false w))
    end.
Proof.
  unfold createFolder. step_M. cbn.
  destruct (Drive.files_create _ _ _ _); reflexivity.
Qed.

(** [checkFolderExists] is the one gateway function that does not rethrow:
    whatever the provider's error, it answers [false]. *)
Lemma checkFolderExists_never_throws google folderId accessToken refreshToken w :
  exists b w', checkFolderExists google folderId accessToken refreshToken w
               = (Js.Normal b, w').
Proof.
  unfold checkFolderExists. step_M. cbn.
  destruct (Drive.files_get _ _ _ _); [by eexists _, _|].
  case_bool_decide; by eexists _, _.
Qed.

(** The owner's soft delete, whatever the provider answers. *)
Lemma deleteFolderById_owner google req id w folder owner :
  well_keyed w ->
  folders w !! id = Some folder ->
  Folder.facultyId folder = User._id (user req) ->
  users w !! User._id (user req) = Some owner ->
  let creds := credentialsOf owner in
  let rq := Drive.FilesDelete (Folder.driveFolderId folder) in
  let answer :=
    Drive.files_delete google (driveLog w) creds (Folder.driveFolderId folder) in
  let w1 := called creds rq (acceptedBy answer) w in
  let w2 :=
    match answer with
    | Js.Normal _ => w1
    | Js.Thrown e =>
        complained "Error deleting from Drive:"
          (Js.Err "Failed to delete folder from Google Drive" None)
          (complained "Error deleting folder:" e w1)
    end in
  deleteFolderById google req id w
  = (Js.Normal (Json 200 true "Folder deleted successfully" NoData),
     set_logs (logs w ++ [delete_entry req owner folder (clock w)])
       (set_folders (<[id := Folder.set_isActive false folder]> (folders w)) w2)).
Proof.
  intros [Hk _] Hf Ho Hu. unfold deleteFolderById, createLog. step_M.
  rewrite Hf, Ho, N.eqb_refl. cbn. rewrite Hu. cbn. rewrite deleteFolder_run.
  unfold credentialsOf, delete_entry, called, complained. simpl.
  destruct (Drive.files_delete _ _ _ _); cbn; rewrite (Hk _ _ Hf); reflexivity.
Qed.

Lemma edited_keeps subject description folder :
  Folder._id (edited subject description folder) = Folder._id folder
  /\ Folder.permissions (edited subject description folder) = Folder.permissions folder
  /\ Folder.driveFolderId (edited subject description folder)
     = Folder.driveFolderId folder.
Proof.
  unfold edited. destruct subject as [s|], description as [d|]; simpl;
    try destruct (negb (String.eqb s "")); done.
Qed.

(** [updateFolder] by the owner, asking for another permission level. *)
Lemma updateFolder_permission google req id subject p description w folder owner :
  well_keyed w ->
  folders w !! id = Some folder ->
  Folder.facultyId folder = User._id (user req) ->
  users w !! User._id (user req) = Some owner ->
  p <> "" ->
  p <> Folder.permissions folder ->
  let creds := credentialsOf owner in
  let rq :=
    Drive.PermissionsCreate (Folder.driveFolderId folder) "anyone" (permissionMap p) in
  updateFolder google req id subject (Some p) description w
  = match Drive.permissions_create google (driveLog w) creds
            (Folder.driveFolderId folder) (permissionMap p) with
    | Js.Normal _ =>
        let folder' := Folder.set_permissions p (edited subject description folder) in
        (Js.Normal (Json 200 true "Folder updated successfully" (FolderDoc folder')),
         set_folders (<[id := folder']> (folders w)) (called creds rq true w))
    | Js.Thrown e =>
        (Js.Normal (Json 500 false "Error updating folder"
                      (ErrorMessage "Failed to set folder permissions")),
         complained "Error setting permissions:" e (called creds rq false w))
    end.
Proof.
  intros [Hk _] Hf Ho Hu Hp Hne. unfold updateFolder. step_M.
  rewrite Hf, Ho, N.eqb_refl. cbn.
  fold (edited subject description folder).
  destruct (edited_keeps subject description folder) as (Hid & Hperm & Hdrv).
  rewrite Hperm.
  destruct (String.eqb_spec p "") as [?|_]; [done|].
  destruct (String.eqb_spec p (Folder.permissions folder)) as [?|_]; [done|].
  cbn. rewrite Hu. cbn. rewrite setFolderPermissions_run, Hdrv.
  unfold credentialsOf, called, complained.
  destruct (Drive.permissions_create _ _ _ _ _); cbn; [|reflexivity].
  rewrite Hid, (Hk _ _ Hf). reflexivity.
Qed.


Lemma createNewFolder_run google req department semester subject permissions
    description w faculty :
  users w !! User._id (user req) = Some faculty ->
  Js.truthy (GoogleTokens.accessToken (User.googleTokens faculty)) = true ->
  let creds := credentialsOf faculty in
  let folderName :=
    (department ++ "_SEM" ++ pretty semester ++ "_" ++ subject)%string in
  let create := Drive.FilesCreate folderName "application/vnd.google-apps.folder" in
  let role := permissionMap (Js.or_str permissions "view") in
  createNewFolder google req department semester subject permissions description w
  = match Drive.files_create google (driveLog w) creds folderName with
    | Js.Thrown e =>
        (Js.Normal (Json 500 false "Error creating folder"
                      (ErrorMessage "Failed to create folder in Google Drive")),
         complained "Create folder error:"
           (Js.Err "Failed to create folder in Google Drive" None)
           (complained "Error creating folder:" e (called creds create false w)))
    | Js.Normal file =>
        let w1 := called creds create true w in
        let share := Drive.PermissionsCreate (Drive.id file) "anyone" role in
        match Drive.permissions_create google (driveLog w1) creds (Drive.id file) role with
        | Js.Thrown e =>
            (Js.Normal (Json 500 false "Error creating folder"
                          (ErrorMessage "Failed to set folder permissions")),
             complained "Create folder error:"
               (Js.Err "Failed to set folder permissions" None)
               (complained "Error setting permissions:" e
                  (called creds share false w1)))
        | Js.Normal _ =>
            let folder :=
              created (oids w) faculty department semester subject permissions
                description file in
            (Js.Normal (Json 201 true "Folder created successfully" (FolderDoc folder)),
             set_logs (logs w ++ [create_entry req faculty folder (clock w)])
               (set_folders (<[oids w := folder]> (folders w))
                  (set_oids (oids w + 1)%N (called creds share true w1))))
        end
    end.
Proof.
  intros Hu Ht. unfold createNewFolder, createLog. step_M.
  rewrite Hu. cbn. rewrite Ht. cbn. rewrite createFolder_run.
  unfold credentialsOf.
  destruct (Drive.files_create _ _ _ _) as [file|e]; cbn; [|reflexivity].
  rewrite setFolderPermissions_run. cbn.
  destruct (Drive.permissions_create _ _ _ _ _); reflexivity.
Qed.



(** C7. A provider failure during the owner's [deleteFolderById] is
    swallowed: it is written to the console, the folder is marked inactive
    all the same, the [delete_folder] audit entry is appended and the
    answer is 200.  In the other operations that call the provider the
    failure reaches the caller: [createNewFolder] answers 500 with the
    gateway's message, and stores no folder, when the provider rejects
    [files.create] or the [permissions.create] that follows it, and
    [updateFolder] answers 500 when the provider rejects the permission
    change. *)
Theorem provider_failure_policy google :
  (forall req id w folder owner e,
     well_keyed w ->
     folders w !! id = Some folder ->
     Folder.facultyId folder = User._id (user req) ->
     users w !! User._id (user req) = Some owner ->
     Drive.files_delete google (driveLog w) (credentialsOf owner)
       (Folder.driveFolderId folder) = Js.Thrown e ->
     exists w',
       deleteFolderById google req id w
       = (Js.Normal (Json 200 true "Folder deleted successfully" NoData), w')
       /\ folders w' = <[id := Folder.set_isActive false folder]> (folders w)
       /\ logs w' = logs w ++ [delete_entry req owner folder (clock w)]
       /\ console w'
          = console w
            ++ [("Error deleting folder:", e);
                ("Error deleting from Drive:",
                 Js.Err "Failed to delete folder from Google Drive" None)])
  /\ (forall req department semester subject permissions description w faculty e,
        users w !! User._id (user req) = Some faculty ->
        Js.truthy (GoogleTokens.accessToken (User.googleTokens faculty)) = true ->
        Drive.files_create google (driveLog w) (credentialsOf faculty)
          (department ++ "_SEM" ++ pretty semester ++ "_" ++ subject)
        = Js.Thrown e ->
        exists w',
          createNewFolder google req department semester subject permissions
            description w
          = (Js.Normal (Json 500 false "Error creating folder"
                          (ErrorMessage "Failed to create folder in Google Drive")),
             w')
          /\ folders w' = folders w /\ logs w' = logs w)
  /\ (forall req department semester subject permissions description w faculty
             file e,
        users w !! User._id (user req) = Some faculty ->
        Js.truthy (GoogleTokens.accessToken (User.googleTokens faculty)) = true ->
        Drive.files_create google (driveLog w) (credentialsOf faculty)
          (department ++ "_SEM" ++ pretty semester ++ "_" ++ subject)
        = Js.Normal file ->
        Drive.permissions_create google
          (driveLog w
           ++ [Drive.mkExchange (credentialsOf faculty)
                 (Drive.FilesCreate
                    (department ++ "_SEM" ++ pretty semester ++ "_" ++ subject)
                    "application/vnd.google-apps.folder") true])
          (credentialsOf faculty) (Drive.id file)
          (permissionMap (Js.or_str permissions "view"))
        = Js.Thrown e ->
        exists w',
          createNewFolder google req department semester subject permissions
            description w
          = (Js.Normal (Json 500 false "Error creating folder"
                          (ErrorMessage "Failed to set folder permissions")),
             w')
          /\ folders w' = folders w /\ logs w' = logs w)
  /\ (forall req id subject p description w folder owner e,
        well_keyed w ->
        folders w !! id = Some folder ->
        Folder.facultyId folder = User._id (user req) ->
        users w !! User._id (user req) = Some owner ->
        p <> "" ->
        p <> Folder.permissions folder ->
        Drive.permissions_create google (driveLog w) (credentialsOf owner)
          (Folder.driveFolderId folder) (permissionMap p) = Js.Thrown e ->
        exists w',
          updateFolder google req id subject (Some p) description w
          = (Js.Normal (Json 500 false "Error updating folder"
                          (ErrorMessage "Failed to set folder permissions")),
             w')
          /\ folders w' = folders w /\ logs w' = logs w).
Proof.
  repeat split.
  - intros req id w folder owner e Hk Hf Ho Hu He.
    pose proof (deleteFolderById_owner google req id w folder owner Hk Hf Ho Hu) as Hrun.
    cbv zeta in Hrun. rewrite He in Hrun.
    eexists. split; [exact Hrun|]. simpl.
    split; [reflexivity|]. split; [reflexivity|]. by rewrite <- app_assoc.
  - intros req department semester subject permissions description w faculty e Hu Ht He.
    pose proof (createNewFolder_run google req department semester subject
                  permissions description w faculty Hu Ht) as Hrun.
    cbv zeta in Hrun. rewrite He in Hrun.
    eexists. split; [exact Hrun|]. done.
  - intros req department semester subject permissions description w faculty file e
      Hu Ht Hc He.
    pose proof (createNewFolder_run google req department semester subject
                  permissions description w faculty Hu Ht) as Hrun.
    cbv zeta in Hrun. rewrite Hc in Hrun. simpl in Hrun. rewrite He in Hrun.
    eexists. split; [exact Hrun|]. done.
  - intros req id subject p description w folder owner e Hk Hf Ho Hu Hp Hne He.
    pose proof (updateFolder_permission google req id subject p description w
                  folder owner Hk Hf Ho Hu Hp Hne) as Hrun.
    cbv zeta in Hrun. rewrite He in Hrun.
    eexists. split; [exact Hrun|]. done.
Qed.

Lemma provider_failure_policy_witness :
  well_keyed Scenario.world
  /\ folders Scenario.world !! 10%N = Some Scenario.notes
  /\ users Scenario.world !! 1%N = Some Scenario.alice
  /\ (exists w',
        deleteFolderById Scenario.offline (Scenario.from Scenario.alice) 10%N
          Scenario.world
        = (Js.Normal (Json 200 true "Folder deleted successfully" NoData), w')
        /\ Folder.isActive <$> folders w' !! 10%N = Some false
        /\ Log.action <$> logs w' = [Action.delete_folder])
  /\ (exists w',
        createNewFolder Scenario.offline (Scenario.from Scenario.alice) "CSE" 5
          "Networks" None None Scenario.world
        = (Js.Normal (Json 500 false "Error creating folder"
                        (ErrorMessage "Failed to create folder in Google Drive")),
           w')
        /\ folders w' = folders Scenario.world)
  /\ (exists w',
        createNewFolder Scenario.unsharing (Scenario.from Scenario.alice) "CSE" 5
          "Networks" None None Scenario.world
        = (Js.Normal (Json 500 false "Error creating folder"
                        (ErrorMessage "Failed to set folder permissions")),
           w')
        /\ folders w' = folders Scenario.world)
  /\ (exists w',
        updateFolder Scenario.offline (Scenario.from Scenario.alice) 10%N None
          (Some "edit") None Scenario.world
        = (Js.Normal (Json 500 false "Error updating folder"
                        (ErrorMessage "Failed to set folder permissions")),
           w')
        /\ folders w' = folders Scenario.world).
Proof.
  assert (K : well_keyed Scenario.world).
  { refine (bool_decide_unpack _ _). vm_compute. exact I. }
  assert (H1 : folders Scenario.world !! 10%N = Some Scenario.notes) by reflexivity.
  assert (H3 : users Scenario.world !! 1%N = Some Scenario.alice) by reflexivity.
  repeat (split; [assumption|]).
  split; [|split; [|split]].
  - destruct (proj1 (provider_failure_policy Scenario.offline)
                (Scenario.from Scenario.alice) 10%N Scenario.world Scenario.notes
                Scenario.alice (Js.Err "socket hang up" (Some 503%N))
                K H1 eq_refl H3 eq_refl)
      as (w' & Hrun & Hf & Hl & _).
    exists w'. split; [exact Hrun|]. rewrite Hf, Hl. split; reflexivity.
  - destruct (proj1 (proj2 (provider_failure_policy Scenario.offline))
                (Scenario.from Scenario.alice) "CSE" 5%Z "Networks" None None
                Scenario.world Scenario.alice (Js.Err "socket hang up" (Some 503%N))
                H3 eq_refl eq_refl)
      as (w' & Hrun & Hf & _).
    exists w'. split; [exact Hrun|exact Hf].
  - destruct (proj1 (proj2 (proj2 (provider_failure_policy Scenario.unsharing)))
                (Scenario.from Scenario.alice) "CSE" 5%Z "Networks" None None
                Scenario.world Scenario.alice _
                (Js.Err "insufficientPermissions" (Some 403%N))
                H3 eq_refl eq_refl eq_refl)
      as (w' & Hrun & Hf & _).
    exists w'. split; [exact Hrun|exact Hf].
  - assert (H4 : "edit" <> "") by discriminate.
    assert (H5 : "edit" <> Folder.permissions Scenario.notes) by discriminate.
    destruct (proj2 (proj2 (proj2 (provider_failure_policy Scenario.offline)))
                (Scenario.from Scenario.alice) 10%N None "edit" None
                Scenario.world Scenario.notes Scenario.alice
                (Js.Err "socket hang up" (Some 503%N))
                K H1 eq_refl H3 H4 H5 eq_refl)
      as (w' & Hrun & Hf & _).
    exists w'. split; [exact Hrun|exact Hf].
Defined.

(** ** TokenLifecycleManager and sign-in *)

Section SignIn.

Context (process_env : Env) (cryptojs : CryptoJS.t) (random : N -> string).
Context (issuer : Issuer.t).
Context (generateToken : ObjectId -> string -> Role.t -> string).
Context (encodeURIComponent : string -> string).



End SignIn.






(** ** Concurrent accesses to one folder *)


Lemma saved_count_nonneg calls : (0 <= saved_count calls)%Z.
Proof. unfold saved_count. lia. Qed.







(** A call resumed until it answers does what the handler does. *)
Lemma alone_accessFolder req id w :
  exists res,
    accessFolder req id w = (Js.Normal res, (alone 4 (mkCall req id Start) w).2)
    /\ (alone 4 (mkCall req id Start) w).1 = mkCall req id (Done res).
Proof.
  unfold accessFolder, incrementViewCount, createLog. step_M.
  unfold alone, advance, goto. simpl.
  destruct (folders w !! id) as [f|]; simpl; [|by eexists].
  destruct (Folder.isActive f); simpl; by eexists.
Qed.





(** ** crypto-js inverts itself *)

Lemma all_octets_spec (P : Z -> bool) :
  all_octets P = true -> forall b, octet b -> P b = true.
Proof.
  unfold all_octets. intros H b [Hlo Hhi].
  apply Is_true_true, forallb_True in H.
  rewrite Forall_forall in H. apply Is_true_true, H.
  apply list_elem_of_fmap. exists (Z.to_nat b). split; [lia|].
  apply elem_of_seq. lia.
Qed.

Lemma all_octets2_spec (P : Z -> Z -> bool) :
  all_octets (fun a => all_octets (P a)) = true ->
  forall a b, octet a -> octet b -> P a b = true.
Proof.
  intros H a b Ha Hb.
  apply (all_octets_spec (P a)); [|done].
  by apply (all_octets_spec (fun a => all_octets (P a))).
Qed.

Lemma is_octet_spec b : is_octet b = true <-> octet b.
Proof. unfold is_octet, octet. rewrite andb_true_iff, Z.leb_le, Z.ltb_lt. tauto. Qed.

Lemma octet_lxor a b : octet a -> octet b -> octet (Z.lxor a b).
Proof.
  intros Ha Hb. apply is_octet_spec.
  apply (all_octets2_spec (fun a b => is_octet (Z.lxor a b))); [by vm_compute|done..].
Qed.

Lemma octet_gmul a b : octet a -> octet b -> octet (AES.gmul a b).
Proof.
  intros Ha Hb. apply is_octet_spec.
  apply (all_octets2_spec (fun a b => is_octet (AES.gmul a b))); [by vm_compute|done..].
Qed.

Lemma octet_sub b : octet b -> octet (AES.sub b).
Proof.
  intros Hb. apply is_octet_spec.
  apply (all_octets_spec (fun b => is_octet (AES.sub b))); [by vm_compute|done].
Qed.

Lemma inv_sub_sub b : octet b -> AES.inv_sub (AES.sub b) = b.
Proof.
  intros Hb. apply Z.eqb_eq.
  apply (all_octets_spec (fun b => AES.inv_sub (AES.sub b) =? b)%Z); [by vm_compute|done].
Qed.

Lemma gmul_go_add n a x y :
  AES.gmul_go n a (Z.lxor x y) = Z.lxor (AES.gmul_go n a x) (AES.gmul_go n a y).
Proof.
  revert a x y. induction n as [|n IH]; intros a x y; cbn [AES.gmul_go]; [done|].
  rewrite Z.shiftr_lxor, IH, Z.lxor_spec.
  apply Z.bits_inj'. intros k _. rewrite !Z.lxor_spec.
  destruct (Z.testbit x 0), (Z.testbit y 0); cbn [xorb];
    rewrite ?Z.lxor_spec, ?Z.bits_0;
    repeat destruct (Z.testbit _ k); reflexivity.
Qed.

Lemma gmul_add a x y :
  AES.gmul a (Z.lxor x y) = Z.lxor (AES.gmul a x) (AES.gmul a y).
Proof. apply gmul_go_add. Qed.

Lemma xor_shuffle a b c d e f g h :
  Z.lxor (Z.lxor a e) (Z.lxor (Z.lxor b f) (Z.lxor (Z.lxor c g) (Z.lxor (Z.lxor d h) 0)))
  = Z.lxor (Z.lxor a (Z.lxor b (Z.lxor c (Z.lxor d 0))))
      (Z.lxor e (Z.lxor f (Z.lxor g (Z.lxor h 0)))).
Proof.
  apply Z.bits_inj'. intros k _. rewrite !Z.lxor_spec, Z.bits_0.
  repeat destruct (Z.testbit _ k); reflexivity.
Qed.

Lemma mix_column_add m0 m1 m2 m3 a b c d e f g h :
  AES.mix_column [m0; m1; m2; m3] (Octets.xor (aes_column a b c d) (aes_column e f g h))
  = Octets.xor (AES.mix_column [m0; m1; m2; m3] (aes_column a b c d))
      (AES.mix_column [m0; m1; m2; m3] (aes_column e f g h)).
Proof.
  unfold AES.mix_column, Octets.xor, aes_column. simpl.
  rewrite !gmul_add, !xor_shuffle. reflexivity.
Qed.

Lemma mix_column_shape m0 m1 m2 m3 a b c d :
  exists p q r s, AES.mix_column [m0; m1; m2; m3] (aes_column a b c d) = aes_column p q r s.
Proof. unfold AES.mix_column, aes_column. simpl. by eexists _, _, _, _. Qed.

Lemma unmix_add a b c d e f g h :
  unmix (Octets.xor (aes_column a b c d) (aes_column e f g h))
  = Octets.xor (unmix (aes_column a b c d)) (unmix (aes_column e f g h)).
Proof.
  unfold unmix. rewrite mix_column_add.
  destruct (mix_column_shape 2 3 1 1 a b c d) as (p & q & r & s & ->).
  destruct (mix_column_shape 2 3 1 1 e f g h) as (p' & q' & r' & s' & ->).
  apply mix_column_add.
Qed.

Lemma unmix_add' u v :
  length u = 4%nat -> length v = 4%nat ->
  unmix (Octets.xor u v) = Octets.xor (unmix u) (unmix v).
Proof.
  intros Hu Hv.
  destruct u as [|a [|b [|c [|d [|]]]]]; try done.
  destruct v as [|e [|f [|g [|h [|]]]]]; try done.
  apply unmix_add.
Qed.

Lemma unmix_unit a :
  octet a ->
  unmix (aes_column a 0 0 0) = aes_column a 0 0 0
  /\ unmix (aes_column 0 a 0 0) = aes_column 0 a 0 0
  /\ unmix (aes_column 0 0 a 0) = aes_column 0 0 a 0
  /\ unmix (aes_column 0 0 0 a) = aes_column 0 0 0 a.
Proof.
  intros Ha.
  pose proof (all_octets_spec
    (fun a => bool_decide (unmix (aes_column a 0 0 0) = aes_column a 0 0 0)
              && bool_decide (unmix (aes_column 0 a 0 0) = aes_column 0 a 0 0)
              && bool_decide (unmix (aes_column 0 0 a 0) = aes_column 0 0 a 0)
              && bool_decide (unmix (aes_column 0 0 0 a) = aes_column 0 0 0 a))) as H.
  specialize (H ltac:(by vm_compute) a Ha).
  rewrite !andb_true_iff, !bool_decide_eq_true in H. tauto.
Qed.

Lemma unmix_column a b c d :
  octet a -> octet b -> octet c -> octet d ->
  unmix (aes_column a b c d) = aes_column a b c d.
Proof.
  intros Ha Hb Hc Hd.
  assert (Hsplit : aes_column a b c d
                   = Octets.xor (aes_column a 0 0 0)
                       (Octets.xor (aes_column 0 b 0 0)
                          (Octets.xor (aes_column 0 0 c 0) (aes_column 0 0 0 d)))).
  { unfold Octets.xor, aes_column. simpl.
    by rewrite !Z.lxor_0_r, !Z.lxor_0_l. }
  rewrite Hsplit at 1.
  rewrite !unmix_add' by reflexivity.
  destruct (unmix_unit a Ha) as (-> & _).
  destruct (unmix_unit b Hb) as (_ & -> & _).
  destruct (unmix_unit c Hc) as (_ & _ & -> & _).
  destruct (unmix_unit d Hd) as (_ & _ & _ & ->).
  by rewrite <- Hsplit.
Qed.

#[local] Hint Resolve octet_lxor octet_gmul octet_sub : octets.
#[local] Hint Extern 1 (octet _) => (unfold octet; lia) : octets.

Lemma shift_rows_inv s : length s = 16%nat -> AES.inv_shift_rows (AES.shift_rows s) = s.
Proof. intros H. explode s H. reflexivity. Qed.

Lemma state_shift_rows s : aes_state s -> aes_state (AES.shift_rows s).
Proof.
  intros [Hl Ho]. explode s Hl. octets_of Ho. split; [reflexivity|].
  unfold AES.shift_rows. simpl. forall_octets.
Qed.

Lemma state_sub s : aes_state s -> aes_state (AES.sub <$> s).
Proof.
  intros [Hl Ho]. split; [by rewrite length_fmap|].
  apply Forall_fmap. eapply Forall_impl; [exact Ho|]. intros b. apply octet_sub.
Qed.

Lemma sub_inv s : Forall octet s -> AES.inv_sub <$> (AES.sub <$> s) = s.
Proof.
  induction 1 as [|b s Hb _ IH]; [done|].
  rewrite !fmap_cons, IH, inv_sub_sub; done.
Qed.

Lemma state_xor s k : aes_state s -> aes_state k -> aes_state (Octets.xor s k).
Proof.
  intros [Hl Ho] [Hkl Hko]. explode s Hl. explode k Hkl. octets_of Ho. octets_of Hko.
  split; [reflexivity|]. unfold Octets.xor. simpl. forall_octets.
Qed.

Lemma xor_inv s k : length s = length k -> Octets.xor (Octets.xor s k) k = s.
Proof.
  unfold Octets.xor. revert k. induction s as [|a s IH]; intros [|b k] H; try done.
  simpl. rewrite IH by (simpl in H; lia).
  by rewrite Z.lxor_assoc, Z.lxor_nilpotent, Z.lxor_0_r.
Qed.

Lemma state_mix_columns m0 m1 m2 m3 s :
  octet m0 -> octet m1 -> octet m2 -> octet m3 ->
  aes_state s -> aes_state (AES.mix_columns [m0; m1; m2; m3] s).
Proof.
  intros H0 H1 H2 H3 [Hl Ho]. explode s Hl. octets_of Ho. split; [reflexivity|].
  unfold AES.mix_columns, AES.mix_column. simpl. forall_octets.
Qed.

Lemma mix_columns_cols m a0 a1 a2 a3 a4 a5 a6 a7 a8 a9 a10 a11 a12 a13 a14 a15 :
  AES.mix_columns m [a0; a1; a2; a3; a4; a5; a6; a7; a8; a9; a10; a11; a12; a13; a14; a15]
  = AES.mix_column m [a0; a1; a2; a3] ++ AES.mix_column m [a4; a5; a6; a7]
    ++ AES.mix_column m [a8; a9; a10; a11] ++ AES.mix_column m [a12; a13; a14; a15].
Proof. unfold AES.mix_columns. cbn [Octets.blocks]. simpl take. simpl drop.
  cbn [fmap list_fmap mjoin list_join]. by rewrite app_nil_r. Qed.

Lemma unmix_cols a b c d :
  octet a -> octet b -> octet c -> octet d ->
  exists p q r s,
    AES.mix_column [2; 3; 1; 1]%Z [a; b; c; d] = [p; q; r; s]
    /\ AES.mix_column [14; 11; 13; 9]%Z [p; q; r; s] = [a; b; c; d].
Proof.
  intros Ha Hb Hc Hd.
  destruct (mix_column_shape 2 3 1 1 a b c d) as (p & q & r & s & E).
  exists p, q, r, s. split; [exact E|].
  pose proof (unmix_column a b c d Ha Hb Hc Hd) as U.
  unfold unmix in U. by rewrite E in U.
Qed.

Lemma mix_columns_inv s :
  aes_state s ->
  AES.mix_columns [14; 11; 13; 9]%Z (AES.mix_columns [2; 3; 1; 1]%Z s) = s.
Proof.
  intros [Hl Ho]. explode s Hl. octets_of Ho.
  rewrite mix_columns_cols.
  repeat match goal with
         | |- context [AES.mix_column [2; 3; 1; 1]%Z [?a; ?b; ?c; ?d]] =>
             let E := fresh "E" in let U := fresh "U" in
             destruct (unmix_cols a b c d) as (? & ? & ? & ? & E & U);
             [assumption..|]; rewrite E
         end.
  cbn [app]. rewrite mix_columns_cols.
  repeat match goal with
         | U : AES.mix_column [14; 11; 13; 9]%Z _ = _ |- _ => rewrite U; clear U
         end.
  reflexivity.
Qed.

Lemma state_sub_shift s : aes_state s -> aes_state (AES.shift_rows (AES.sub <$> s)).
Proof. intros H. by apply state_shift_rows, state_sub. Qed.

Lemma state_mixed s : aes_state s -> aes_state (AES.mix_columns [2; 3; 1; 1]%Z s).
Proof. apply state_mix_columns; unfold octet; lia. Qed.

Lemma state_round s k : aes_state s -> aes_state k -> aes_state (aes_round s k).
Proof. intros Hs Hk. by apply state_xor; [apply state_mixed, state_sub_shift|]. Qed.

Lemma unshift_unsub s :
  aes_state s -> AES.inv_sub <$> AES.inv_shift_rows (AES.shift_rows (AES.sub <$> s)) = s.
Proof.
  intros [Hl Ho]. rewrite shift_rows_inv by (by rewrite length_fmap).
  by apply sub_inv.
Qed.

Lemma inv_round_round s k :
  aes_state s -> aes_state k ->
  aes_inv_round (AES.shift_rows (AES.sub <$> aes_round s k)) k
  = AES.shift_rows (AES.sub <$> s).
Proof.
  intros Hs Hk. unfold aes_inv_round.
  rewrite unshift_unsub by (by apply state_round). unfold aes_round.
  pose proof (state_mixed _ (state_sub_shift s Hs)) as [Hl _].
  rewrite xor_inv by (destruct Hk; congruence).
  apply mix_columns_inv. by apply state_sub_shift.
Qed.

Lemma state_rounds keys s :
  Forall aes_state keys -> aes_state s -> aes_state (foldl aes_round s keys).
Proof.
  intros Hk. revert s. induction Hk as [|k keys Hk _ IH]; intros s Hs; [done|].
  simpl. apply IH. by apply state_round.
Qed.

Lemma rounds_inv keys s :
  Forall aes_state keys -> aes_state s ->
  foldl aes_inv_round (AES.shift_rows (AES.sub <$> foldl aes_round s keys)) (reverse keys)
  = AES.shift_rows (AES.sub <$> s).
Proof.
  intros Hk. revert s. induction Hk as [|k keys Hk _ IH]; intros s Hs; [done|].
  simpl. rewrite reverse_cons, foldl_app. simpl.
  rewrite IH by (by apply state_round). by apply inv_round_round.
Qed.

Lemma cipher_rounds ks b :
  AES.cipher ks b
  = Octets.xor
      (AES.shift_rows
         (AES.sub <$> foldl aes_round (Octets.xor b (nth 0 ks [])) (take 13 (drop 1 ks))))
      (nth 14 ks []).
Proof. reflexivity. Qed.

Lemma inv_cipher_rounds ks b :
  AES.inv_cipher ks b
  = Octets.xor
      (AES.inv_sub
         <$> AES.inv_shift_rows
               (foldl aes_inv_round (Octets.xor b (nth 14 ks []))
                  (reverse (take 13 (drop 1 ks)))))
      (nth 0 ks []).
Proof. reflexivity. Qed.

Lemma schedule_parts ks :
  round_keys ks ->
  aes_state (nth 0 ks []) /\ aes_state (nth 14 ks []) /\ Forall aes_state (take 13 (drop 1 ks)).
Proof.
  intros [Hl Hs]. split; [|split].
  - apply (Forall_lookup_1 _ _ 0%nat _ Hs).
    destruct ks; [done|reflexivity].
  - destruct (lookup_lt_is_Some_2 ks 14) as [k Hk]; [lia|].
    rewrite (nth_lookup_Some _ _ _ _ Hk). by apply (Forall_lookup_1 _ _ _ _ Hs Hk).
  - by apply Forall_take, Forall_drop.
Qed.

Lemma state_cipher ks b : round_keys ks -> aes_state b -> aes_state (AES.cipher ks b).
Proof.
  intros Hks Hb. destruct (schedule_parts ks Hks) as (H0 & H14 & Hmid).
  rewrite cipher_rounds. apply state_xor; [|done].
  apply state_sub_shift, state_rounds; [done|]. by apply state_xor.
Qed.

Lemma inv_cipher_cipher ks b :
  round_keys ks -> aes_state b -> AES.inv_cipher ks (AES.cipher ks b) = b.
Proof.
  intros Hks Hb. destruct (schedule_parts ks Hks) as (H0 & H14 & Hmid).
  rewrite inv_cipher_rounds, cipher_rounds.
  assert (Hs0 : aes_state (Octets.xor b (nth 0 ks []))) by by apply state_xor.
  pose proof (state_rounds _ _ Hmid Hs0) as Hs13.
  pose proof (state_sub_shift _ Hs13) as [Hl13 _].
  rewrite xor_inv by (destruct H14; congruence).
  rewrite rounds_inv by done.
  rewrite unshift_unsub by done.
  apply xor_inv. destruct Hb, H0. congruence.
Qed.

(** Blocks of a list whose length is a multiple of the block size. *)
Lemma blocks_each fuel n l :
  Forall (fun b => length b = n) (Octets.blocks fuel n l).
Proof.
  revert l. induction fuel as [|fuel IH]; intros l; simpl; [done|].
  destruct l as [|x l]; [done|]. apply Forall_cons_2; [|apply IH].
  rewrite length_take, length_app, length_replicate. lia.
Qed.

Lemma blocks_octets fuel n l :
  Forall octet l -> Forall (Forall octet) (Octets.blocks fuel n l).
Proof.
  revert l. induction fuel as [|fuel IH]; intros l Hl; simpl; [done|].
  destruct l as [|x l]; [done|]. apply Forall_cons_2.
  - apply Forall_take, Forall_app. split; [done|].
    apply Forall_replicate. unfold octet. lia.
  - by apply IH, Forall_drop.
Qed.

Lemma blocks_exact k n fuel l :
  (0 < n)%nat -> length l = (n * k)%nat -> (k <= fuel)%nat ->
  length (Octets.blocks fuel n l) = k /\ mjoin (Octets.blocks fuel n l) = l.
Proof.
  intros Hn. revert fuel l. induction k as [|k IH]; intros fuel l Hl Hf.
  - assert (l = []) as -> by (apply nil_length_inv; lia).
    by destruct fuel.
  - destruct fuel as [|fuel]; [lia|].
    destruct l as [|x l]; [simpl in Hl; lia|].
    remember (x :: l) as l' eqn:El.
    assert (Hstep : Octets.blocks (S fuel) n l'
                    = take n (l' ++ replicate n 0%Z) :: Octets.blocks fuel n (drop n l'))
      by (by rewrite El).
    rewrite Hstep. clear Hstep El.
    destruct (IH fuel (drop n l')) as [Hc Hj].
    { rewrite length_drop, Hl. lia. }
    { lia. }
    simpl. rewrite Hc, Hj. split; [done|].
    rewrite take_app_le by (rewrite Hl; lia).
    apply take_drop.
Qed.

Lemma blocks_mjoin fuel bs :
  Forall (fun b => length b = 16%nat) bs -> (length bs <= fuel)%nat ->
  Octets.blocks fuel 16 (mjoin bs) = bs.
Proof.
  intros Hbs. revert fuel. induction Hbs as [|b bs Hb _ IH]; intros fuel Hf.
  - by destruct fuel.
  - destruct fuel as [|fuel]; [simpl in Hf; lia|].
    assert (Hj : mjoin (b :: bs) = b ++ mjoin bs) by done. rewrite Hj.
    destruct (b ++ mjoin bs) as [|x r] eqn:E.
    { apply (f_equal length) in E. rewrite length_app, Hb in E. simpl in E. lia. }
    remember (x :: r) as l' eqn:El.
    assert (Hstep : Octets.blocks (S fuel) 16 l'
                    = take 16 (l' ++ replicate 16 0%Z) :: Octets.blocks fuel 16 (drop 16 l'))
      by (by rewrite El).
    rewrite Hstep. clear Hstep. subst l'. rewrite <- E, <- app_assoc.
    rewrite take_app_length' by done. rewrite drop_app_length' by done.
    rewrite IH by (simpl in Hf; lia). done.
Qed.

Lemma octet_gpow n : octet (AES.gpow n 2).
Proof.
  induction n as [|n IH]; simpl; [unfold octet; lia|].
  apply octet_gmul; [unfold octet; lia|done].
Qed.

Lemma word_xor u v : key_word u -> key_word v -> key_word (Octets.xor u v).
Proof.
  intros [Hu Hou] [Hv Hov].
  destruct u as [|a [|b [|c [|d [|]]]]]; try done.
  destruct v as [|e [|f [|g [|h [|]]]]]; try done.
  octets_of Hou. octets_of Hov. split; [done|].
  unfold Octets.xor. simpl. forall_octets.
Qed.

Lemma word_sub w : key_word w -> key_word (AES.sub <$> w).
Proof.
  intros [Hl Ho]. split; [by rewrite length_fmap|].
  apply Forall_fmap. eapply Forall_impl; [exact Ho|]. intros b. apply octet_sub.
Qed.

Lemma word_rot w : key_word w -> key_word (AES.rot_word w).
Proof.
  intros [Hl Ho]. destruct w as [|a [|b [|c [|d [|]]]]]; try done.
  octets_of Ho. split; [done|]. unfold AES.rot_word. simpl. forall_octets.
Qed.

Lemma word_nth i ws : (i < length ws)%nat -> Forall key_word ws -> key_word (nth i ws []).
Proof.
  intros Hi Hws. destruct (lookup_lt_is_Some_2 ws i Hi) as [w Hw].
  rewrite (nth_lookup_Some _ _ _ _ Hw). by apply (Forall_lookup_1 _ _ _ _ Hws Hw).
Qed.

Lemma expand_words n i ws :
  i = length ws -> (8 <= i)%nat -> Forall key_word ws ->
  Forall key_word (AES.expand n i ws) /\ length (AES.expand n i ws) = (i + n)%nat.
Proof.
  revert i ws. induction n as [|n IH]; intros i ws Hi H8 Hws; simpl.
  { split; [done|lia]. }
  assert (Hprev : key_word (nth (i - 1) ws [])) by (apply word_nth; [lia|done]).
  assert (Hold : key_word (nth (i - 8) ws [])) by (apply word_nth; [lia|done]).
  destruct (IH (S i)
              (ws ++ [Octets.xor (nth (i - 8) ws [])
                        (if (i mod 8 =? 0)%nat then
                           Octets.xor (AES.sub <$> AES.rot_word (nth (i - 1) ws []))
                             [AES.gpow (i / 8 - 1) 2; 0%Z; 0%Z; 0%Z]
                         else if (i mod 8 =? 4)%nat then AES.sub <$> nth (i - 1) ws []
                         else nth (i - 1) ws [])])) as [Hw Hl].
  - rewrite length_app, <- Hi. cbn [length]. lia.
  - lia.
  - apply Forall_app. split; [done|]. apply Forall_cons_2; [|done].
    apply word_xor; [done|].
    destruct (i mod 8 =? 0)%nat; [|destruct (i mod 8 =? 4)%nat].
    + apply word_xor; [by apply word_sub, word_rot|].
      split; [done|]. pose proof (octet_gpow (i / 8 - 1)). forall_octets.
    + by apply word_sub.
    + done.
  - split; [exact Hw|]. transitivity (S i + n)%nat; [exact Hl|lia].
Qed.

Lemma mjoin_words ws :
  Forall key_word ws ->
  length (mjoin ws) = (4 * length ws)%nat /\ Forall octet (mjoin ws).
Proof.
  induction 1 as [|w ws [Hl Ho] _ [IHl IHo]]; [done|].
  simpl. rewrite length_app, Hl, IHl. split; [lia|]. by apply Forall_app.
Qed.

Lemma key_schedule_ok key :
  length key = 32%nat -> Forall octet key -> round_keys (AES.key_schedule key).
Proof.
  intros Hl Ho. unfold AES.key_schedule.
  destruct (blocks_exact 8 4 8 key) as [Hc _]; [lia|lia|lia|].
  assert (Hws : Forall key_word (Octets.blocks 8 4 key)).
  { apply Forall_forall. intros w Hw. split.
    - pose proof (blocks_each 8 4 key) as He.
      rewrite Forall_forall in He. by apply He.
    - pose proof (blocks_octets 8 4 key Ho) as He.
      rewrite Forall_forall in He. by apply He. }
  destruct (expand_words 52 8 (Octets.blocks 8 4 key)) as [Hw Hn]; [done|lia|done|].
  destruct (mjoin_words _ Hw) as [Hjl Hjo]. rewrite Hn in Hjl.
  destruct (blocks_exact 15 16 15 (mjoin (AES.expand 52 8 (Octets.blocks 8 4 key))))
    as [Hk _]; [lia|lia|lia|].
  split; [done|].
  apply Forall_forall. intros b Hb. split.
  - pose proof (blocks_each 15 16 (mjoin (AES.expand 52 8 (Octets.blocks 8 4 key)))) as He.
    rewrite Forall_forall in He. by apply He.
  - pose proof (blocks_octets 15 16 _ Hjo) as He.
    rewrite Forall_forall in He. by apply He.
Qed.

Lemma cbc_encrypt_chain ks prev bs :
  AES.cbc_encrypt ks prev bs = mjoin (cbc_chain ks prev bs).
Proof.
  revert prev. induction bs as [|b bs IH]; intros prev; [done|].
  simpl. by rewrite IH.
Qed.

Lemma cbc_chain_states ks prev bs :
  round_keys ks -> aes_state prev -> Forall aes_state bs ->
  Forall aes_state (cbc_chain ks prev bs) /\ length (cbc_chain ks prev bs) = length bs.
Proof.
  intros Hks Hp Hbs. revert prev Hp.
  induction Hbs as [|b bs Hb _ IH]; intros prev Hp; [done|].
  simpl. assert (Hc : aes_state (AES.cipher ks (Octets.xor b prev)))
    by by apply state_cipher, state_xor.
  destruct (IH _ Hc) as [Hs Hl]. split; [by apply Forall_cons_2|by rewrite Hl].
Qed.

Lemma cbc_decrypt_chain ks prev bs :
  round_keys ks -> aes_state prev -> Forall aes_state bs ->
  AES.cbc_decrypt ks prev (cbc_chain ks prev bs) = mjoin bs.
Proof.
  intros Hks Hp Hbs. revert prev Hp.
  induction Hbs as [|b bs Hb _ IH]; intros prev Hp; [done|].
  simpl. rewrite inv_cipher_cipher by (by try apply state_xor).
  rewrite xor_inv by (destruct Hb, Hp; congruence).
  rewrite IH; [done|]. by apply state_cipher, state_xor.
Qed.

(** MD5 digests and derived keys. *)
Lemma octet_land255 x : octet (Z.land x 255).
Proof.
  unfold octet. change 255%Z with (Z.ones 8). rewrite Z.land_ones by lia.
  apply Z.mod_pos_bound. lia.
Qed.

Lemma octets_le_ok n x :
  length (MD5.octets_le n x) = n /\ Forall octet (MD5.octets_le n x).
Proof.
  unfold MD5.octets_le. split; [by rewrite length_fmap, length_seq|].
  apply Forall_fmap, Forall_forall. intros i _. apply octet_land255.
Qed.

Lemma digest_state m : aes_state (MD5.digest m).
Proof.
  unfold MD5.digest. destruct (foldl _ _ _) as [[[a b] c] d].
  destruct (octets_le_ok 4 a) as [La Oa], (octets_le_ok 4 b) as [Lb Ob],
    (octets_le_ok 4 c) as [Lc Oc], (octets_le_ok 4 d) as [Ld Od].
  split.
  - rewrite !length_app, La, Lb, Lc, Ld. done.
  - repeat (apply Forall_app; split); done.
Qed.

Lemma kdf_ok password salt :
  round_keys (AES.key_schedule (PasswordBasedCipher.kdf password salt).1)
  /\ aes_state (PasswordBasedCipher.kdf password salt).2.
Proof.
  unfold PasswordBasedCipher.kdf. simpl. split; [|apply digest_state].
  apply key_schedule_ok.
  - rewrite length_app.
    destruct (digest_state (password ++ salt)) as [-> _].
    by destruct (digest_state (MD5.digest (password ++ salt) ++ password ++ salt))
      as [-> _].
  - apply Forall_app. split; apply digest_state.
Qed.

(** Padding. *)
Lemma pad_ok m :
  Forall octet m ->
  let n := (16 - length m mod 16)%nat in
  PasswordBasedCipher.pad m = m ++ replicate n (Z.of_nat n)
  /\ (1 <= n <= 16)%nat
  /\ length (PasswordBasedCipher.pad m) = (16 * (length m / 16 + 1))%nat
  /\ Forall octet (PasswordBasedCipher.pad m).
Proof.
  intros Hm n. unfold PasswordBasedCipher.pad. fold n.
  assert (Hn : (1 <= n <= 16)%nat).
  { subst n. pose proof (Nat.mod_upper_bound (length m) 16). lia. }
  split; [done|]. split; [done|]. split.
  - rewrite length_app, length_replicate. subst n.
    pose proof (Nat.div_mod (length m) 16). lia.
  - apply Forall_app. split; [done|]. apply Forall_replicate. unfold octet. lia.
Qed.

Lemma sextet_octet v : sextet v -> octet v.
Proof. unfold sextet, octet. lia. Qed.

Lemma sextet_land63 x : sextet (Z.land x 63).
Proof.
  unfold sextet. change 63%Z with (Z.ones 6). rewrite Z.land_ones by lia.
  apply Z.mod_pos_bound. lia.
Qed.

Lemma sextet_shiftr2 a : octet a -> sextet (Z.shiftr a 2).
Proof.
  intros [Hlo Hhi]. unfold sextet. rewrite Z.shiftr_div_pow2 by lia.
  change (2 ^ 2)%Z with 4%Z. split.
  - apply Z.div_pos; lia.
  - apply Z.div_lt_upper_bound; lia.
Qed.

Lemma value_char v : sextet v -> Base64.value (Base64.char v) = v.
Proof.
  intros Hv. apply Z.eqb_eq.
  pose proof (all_octets_spec
    (fun v => (64 <=? v)%Z || (Base64.value (Base64.char v) =? v)%Z)) as H.
  specialize (H ltac:(by vm_compute) v (sextet_octet v Hv)).
  destruct Hv. apply orb_true_iff in H as [H|H]; [|done].
  apply Z.leb_le in H. lia.
Qed.

Lemma char_not_pad v :
  sextet v -> Ascii.eqb (Base64.char v) (Ascii.ascii_of_nat 61) = false.
Proof.
  intros Hv.
  pose proof (all_octets_spec
    (fun v => (64 <=? v)%Z
              || negb (Ascii.eqb (Base64.char v) (Ascii.ascii_of_nat 61)))) as H.
  specialize (H ltac:(by vm_compute) v (sextet_octet v Hv)).
  destruct Hv. apply orb_true_iff in H as [H|H].
  - apply Z.leb_le in H. lia.
  - by apply negb_true_iff in H.
Qed.

Lemma parsed_first a b :
  octet a -> octet b ->
  parsed 1 (Z.shiftr a 2) (Z.land (Z.lor (Z.shiftl a 4) (Z.shiftr b 4)) 63) = a.
Proof.
  intros Ha Hb. apply Z.eqb_eq.
  by apply (all_octets2_spec
    (fun a b => parsed 1 (Z.shiftr a 2)
                  (Z.land (Z.lor (Z.shiftl a 4) (Z.shiftr b 4)) 63) =? a)%Z);
    [vm_compute|..].
Qed.

Lemma parsed_first_only a :
  octet a -> parsed 1 (Z.shiftr a 2) (Z.land (Z.shiftl a 4) 63) = a.
Proof.
  intros Ha. apply Z.eqb_eq.
  by apply (all_octets_spec
    (fun a => parsed 1 (Z.shiftr a 2) (Z.land (Z.shiftl a 4) 63) =? a)%Z);
    [vm_compute|..].
Qed.

Lemma parsed_second_last a b :
  octet a -> octet b ->
  parsed 2 (Z.land (Z.lor (Z.shiftl a 4) (Z.shiftr b 4)) 63)
    (Z.land (Z.shiftl b 2) 63) = b.
Proof.
  intros Ha Hb. apply Z.eqb_eq.
  by apply (all_octets2_spec
    (fun a b => parsed 2 (Z.land (Z.lor (Z.shiftl a 4) (Z.shiftr b 4)) 63)
                  (Z.land (Z.shiftl b 2) 63) =? b)%Z);
    [vm_compute|..].
Qed.

Lemma parsed_second a b c :
  octet a -> octet b -> octet c ->
  parsed 2 (Z.land (Z.lor (Z.shiftl a 4) (Z.shiftr b 4)) 63)
    (Z.land (Z.lor (Z.shiftl b 2) (Z.shiftr c 6)) 63) = b.
Proof.
  intros Ha Hb Hc. unfold parsed.
  change (2 * 2)%Z with 4%Z. change (6 - 4)%Z with 2%Z.
  rewrite Z.land_lor_distr_l.
  assert (H1 : Z.land (Z.shiftl (Z.land (Z.lor (Z.shiftl a 4) (Z.shiftr b 4)) 63) 4) 255
               = Z.land b 240).
  { apply Z.eqb_eq.
    by apply (all_octets2_spec
      (fun a b => Z.land (Z.shiftl (Z.land (Z.lor (Z.shiftl a 4) (Z.shiftr b 4)) 63) 4) 255
                  =? Z.land b 240)%Z); [vm_compute|..]. }
  assert (H2 : Z.land (Z.shiftr (Z.land (Z.lor (Z.shiftl b 2) (Z.shiftr c 6)) 63) 2) 255
               = Z.land b 15).
  { apply Z.eqb_eq.
    by apply (all_octets2_spec
      (fun b c => Z.land (Z.shiftr (Z.land (Z.lor (Z.shiftl b 2) (Z.shiftr c 6)) 63) 2) 255
                  =? Z.land b 15)%Z); [vm_compute|..]. }
  rewrite H1, H2. apply Z.eqb_eq.
  by apply (all_octets_spec
    (fun b => Z.lor (Z.land b 240) (Z.land b 15) =? b)%Z); [vm_compute|..].
Qed.

Lemma parsed_third b c :
  octet b -> octet c ->
  parsed 3 (Z.land (Z.lor (Z.shiftl b 2) (Z.shiftr c 6)) 63) (Z.land c 63) = c.
Proof.
  intros Hb Hc. apply Z.eqb_eq.
  by apply (all_octets2_spec
    (fun b c => parsed 3 (Z.land (Z.lor (Z.shiftl b 2) (Z.shiftr c 6)) 63)
                  (Z.land c 63) =? c)%Z);
    [vm_compute|..].
Qed.

Lemma triples_ind (P : list Z -> Prop) :
  P [] -> (forall a, P [a]) -> (forall a b, P [a; b]) ->
  (forall a b c l, P l -> P (a :: b :: c :: l)) ->
  forall l, P l.
Proof.
  intros H0 H1 H2 H3. fix IH 1.
  intros [|a [|b [|c l]]];
    [exact H0|exact (H1 a)|exact (H2 a b)|exact (H3 a b c l (IH l))].
Qed.

Lemma mod4_next i r : (i mod 4 = r)%nat -> (S i mod 4 = S r mod 4)%nat.
Proof.
  intros <-. rewrite <- (Nat.add_1_r i), <- (Nat.add_1_r (i mod 4)).
  rewrite Nat.Div0.add_mod_idemp_l. done.
Qed.

Lemma parse_go_step i prev c cs :
  Base64.parse_go i prev (c :: cs)
  = (if (i mod 4 =? 0)%nat then []
     else [parsed (Z.of_nat (i mod 4)) prev (Base64.value c)])
    ++ Base64.parse_go (S i) (Base64.value c) cs.
Proof. reflexivity. Qed.

Lemma parse_stringify_go l :
  Forall octet l ->
  forall i prev, (i mod 4 = 0)%nat ->
    Base64.parse_go i prev (Base64.before_padding (Base64.stringify_go l)) = l.
Proof.
  induction l as [|a|a b|a b c l IH] using triples_ind; intros Hl i prev Hi.
  - done.
  - octets_of Hl. cbn [Base64.stringify_go Base64.before_padding].
    rewrite !char_not_pad by (by first [apply sextet_shiftr2|apply sextet_land63]).
    rewrite Ascii.eqb_refl.
    pose proof (mod4_next _ _ Hi) as H1. change (1 mod 4)%nat with 1%nat in H1.
    rewrite !parse_go_step, Hi, H1. cbn [Nat.eqb app Z.of_nat Pos.of_succ_nat].
    rewrite !value_char by (by first [apply sextet_shiftr2|apply sextet_land63]).
    by rewrite parsed_first_only.
  - octets_of Hl. cbn [Base64.stringify_go Base64.before_padding].
    rewrite !char_not_pad by (by first [apply sextet_shiftr2|apply sextet_land63]).
    rewrite Ascii.eqb_refl.
    pose proof (mod4_next _ _ Hi) as H1. change (1 mod 4)%nat with 1%nat in H1.
    pose proof (mod4_next _ _ H1) as H2. change (2 mod 4)%nat with 2%nat in H2.
    rewrite !parse_go_step, Hi, H1, H2.
    cbn [Nat.eqb app Z.of_nat Pos.of_succ_nat Pos.succ].
    rewrite !value_char by (by first [apply sextet_shiftr2|apply sextet_land63]).
    by rewrite parsed_first, parsed_second_last.
  - apply Forall_cons in Hl as [Ha Hl]. apply Forall_cons in Hl as [Hb Hl].
    apply Forall_cons in Hl as [Hc Hl].
    cbn [Base64.stringify_go app Base64.before_padding].
    rewrite !char_not_pad by (by first [apply sextet_shiftr2|apply sextet_land63]).
    pose proof (mod4_next _ _ Hi) as H1. change (1 mod 4)%nat with 1%nat in H1.
    pose proof (mod4_next _ _ H1) as H2. change (2 mod 4)%nat with 2%nat in H2.
    pose proof (mod4_next _ _ H2) as H3. change (3 mod 4)%nat with 3%nat in H3.
    pose proof (mod4_next _ _ H3) as H4. change (4 mod 4)%nat with 0%nat in H4.
    rewrite !parse_go_step, Hi, H1, H2, H3.
    cbn [Nat.eqb app Z.of_nat Pos.of_succ_nat Pos.succ].
    rewrite !value_char by (by first [apply sextet_shiftr2|apply sextet_land63]).
    rewrite parsed_first, parsed_second, parsed_third by done.
    by rewrite IH.
Qed.

Lemma parse_stringify l : Forall octet l -> Base64.parse (Base64.stringify l) = l.
Proof.
  intros Hl. unfold Base64.parse, Base64.stringify.
  rewrite String.list_ascii_of_string_of_list_ascii.
  by apply parse_stringify_go.
Qed.

(** Strings and their octets. *)
Lemma octets_ok s : Forall octet (Octets.octets s).
Proof.
  unfold Octets.octets. apply Forall_fmap, Forall_forall. intros a _.
  pose proof (Ascii.N_ascii_bounded a). unfold octet. simpl. lia.
Qed.

Lemma of_octets_octets s : Octets.of_octets (Octets.octets s) = s.
Proof.
  unfold Octets.of_octets, Octets.octets.
  rewrite <- (String.string_of_list_ascii_of_string s) at 2. f_equal.
  induction (String.list_ascii_of_string s) as [|a l IH]; [done|].
  by rewrite !fmap_cons, IH, N2Z.id, Ascii.ascii_N_embedding.
Qed.

Lemma mjoin_states bs :
  Forall aes_state bs ->
  length (mjoin bs) = (16 * length bs)%nat /\ Forall octet (mjoin bs).
Proof.
  induction 1 as [|b bs [Hl Ho] _ [IHl IHo]]; [done|].
  simpl. rewrite length_app, Hl, IHl. split; [lia|]. by apply Forall_app.
Qed.

Lemma salt_ok salt :
  let s8 := take 8 (Octets.octets salt ++ replicate 8 0%Z) in
  length s8 = 8%nat /\ Forall octet s8.
Proof.
  cbv zeta. split.
  - rewrite length_take, length_app, length_replicate. lia.
  - apply Forall_take, Forall_app. split; [apply octets_ok|].
    apply Forall_replicate. unfold octet. lia.
Qed.

Lemma stringify_nonempty a b c l : Base64.stringify (a :: b :: c :: l) <> "".
Proof. unfold Base64.stringify. simpl. discriminate. Qed.

(** The passphrase cipher of crypto-js gives back what it encrypted. *)
Theorem crypto_js_inverts (fresh secret key salt : string) :
  Utf8.well_formed (S (length (Octets.octets secret))) (Octets.octets secret) = true ->
  exists sealed bytes,
    PasswordBasedCipher.encrypt secret (Some key) salt = Js.Normal sealed
    /\ sealed <> ""
    /\ PasswordBasedCipher.decrypt fresh sealed (Some key) = Js.Normal bytes
    /\ PasswordBasedCipher.toString_Utf8 bytes = Js.Normal secret.
Proof.
  intros Hutf.
  unfold PasswordBasedCipher.encrypt, PasswordBasedCipher.decrypt.
  set (pw := Octets.octets key).
  set (s8 := take 8 (Octets.octets salt ++ replicate 8 0%Z)).
  destruct (salt_ok salt) as [Hs8l Hs8o]. fold s8 in Hs8l, Hs8o.
  pose proof (kdf_ok pw s8) as [Hks Hiv].
  destruct (PasswordBasedCipher.kdf pw s8) as [k iv] eqn:Ek. simpl in Hks, Hiv.
  set (m := Octets.octets secret) in *.
  pose proof (octets_ok secret) as Hm. fold m in Hm.
  destruct (pad_ok m Hm) as (Hp & Hn & Hpl & Hpo). cbv zeta in Hp, Hn.
  set (n := (16 - length m mod 16)%nat) in *.
  set (p := PasswordBasedCipher.pad m) in *.
  set (q := (length m / 16 + 1)%nat) in *.
  destruct (blocks_exact q 16 (length p) p) as [Hbc Hbj]; [lia|lia|lia|].
  set (bs := Octets.blocks (length p) 16 p) in *.
  assert (Hbs : Forall aes_state bs).
  { apply Forall_forall. intros b Hb. split.
    - pose proof (blocks_each (length p) 16 p) as He.
      rewrite Forall_forall in He. by apply He.
    - pose proof (blocks_octets (length p) 16 p Hpo) as He.
      rewrite Forall_forall in He. by apply He. }
  set (ks := AES.key_schedule k) in *.
  rewrite cbc_encrypt_chain.
  destruct (cbc_chain_states ks iv bs Hks Hiv Hbs) as [Hcs Hcl].
  destruct (mjoin_states _ Hcs) as [Hcjl Hcjo].
  set (c := mjoin (cbc_chain ks iv bs)) in *.
  set (raw := PasswordBasedCipher.salted ++ s8 ++ c).
  assert (Hraw : Forall octet raw).
  { repeat (apply Forall_app; split); try done. apply octets_ok. }
  assert (Hsl : length PasswordBasedCipher.salted = 8%nat) by reflexivity.
  assert (Hrl : length raw = (16 + length c)%nat).
  { unfold raw. rewrite !length_app, Hsl, Hs8l. lia. }
  exists (Base64.stringify raw), (p, Z.of_nat (length m)).
  split; [done|]. split.
  { unfold raw. destruct PasswordBasedCipher.salted as [|x1 [|x2 [|x3 r]]] eqn:E;
      [discriminate..|apply stringify_nonempty]. }
  rewrite parse_stringify by done.
  assert (Hhead : take 8 (raw ++ replicate 8 0%Z) = PasswordBasedCipher.salted).
  { unfold raw. rewrite <- app_assoc. by rewrite take_app_length'. }
  rewrite Hhead, bool_decide_eq_true_2 by done.
  assert (Hwords : (4 * (((length raw + 3) / 4) `min` 4 - 2) = 8)%nat).
  { assert (4 <= (length raw + 3) / 4)%nat; [|lia].
    apply Nat.div_le_lower_bound; lia. }
  assert (Hsalt : take 8 (drop 8 (raw ++ replicate 8 0%Z)) = s8).
  { unfold raw. rewrite <- app_assoc, drop_app_length' by done.
    rewrite <- app_assoc. by rewrite take_app_length'. }
  rewrite Hwords, Hsalt, Ek.
  assert (Hbody : drop 16 raw = c).
  { unfold raw. rewrite app_assoc. apply drop_app_length'.
    rewrite length_app. lia. }
  rewrite Hbody. fold ks.
  assert (Hblocks : Octets.blocks (length c) 16 c = cbc_chain ks iv bs).
  { apply blocks_mjoin.
    - eapply Forall_impl; [exact Hcs|]. by intros b [? _].
    - lia. }
  rewrite Hblocks, (cbc_decrypt_chain ks iv bs Hks Hiv Hbs), Hbj.
  assert (Hsig : (Z.of_nat (length raw) - 16 = Z.of_nat (length p))%Z) by lia.
  rewrite Hsig.
  assert (Hpos : (Z.of_nat (length p) <=? 0)%Z = false) by (apply Z.leb_gt; lia).
  rewrite Hpos.
  assert (Hidx : (4 * (Z.to_nat (Z.of_nat (length p) - 1) / 4) + 3
                  = length m + (n - 1))%nat).
  { assert (Hq : (Z.to_nat (Z.of_nat (length p) - 1) / 4 = 4 * q - 1)%nat).
    { symmetry. apply (Nat.div_unique _ 4 _ 3); lia. }
    rewrite Hq. subst n q. pose proof (Nat.div_mod_eq (length m) 16). lia. }
  assert (Hlast : nth (length m + (n - 1)) p 0%Z = Z.of_nat n).
  { apply nth_lookup_Some. rewrite Hp, lookup_app_r by lia.
    apply lookup_replicate_2. lia. }
  rewrite Hidx, Hlast.
  assert (Hlen : (Z.of_nat (length p) - Z.of_nat n = Z.of_nat (length m))%Z).
  { subst n q. pose proof (Nat.div_mod_eq (length m) 16). lia. }
  rewrite Hlen. split; [done|].
  unfold PasswordBasedCipher.toString_Utf8. simpl fst. simpl snd.
  rewrite Nat2Z.id, Hp, take_app_length, Hutf.
  unfold m. by rewrite of_octets_octets.
Qed.

(** ** CredentialVault *)

(** The stored secret of the scenario is the encryption of ["CSE2024ABC"]
    under ["k1"]; under ["k1"] it decrypts to that, and under ["k2"] the
    decryption does not fail: it answers the empty string. *)
Example sealed_under_k1 :
  pre_save (keyed "k1") (crypto_js "") true "saltsalt" unsealed
  = Js.Normal Scenario.alice
  /\ getDecryptedDepartmentCode (keyed "k1") (crypto_js "") Scenario.alice
     = Js.Normal (Some "CSE2024ABC")
  /\ getDecryptedDepartmentCode (keyed "k2") (crypto_js "") Scenario.alice
     = Js.Normal (Some "").
Proof. vm_compute. repeat split. Qed.

(** C2, refuted as stated: with crypto-js, decryption under another key
    can return a string instead of failing. *)
Lemma wrong_key_is_silent : ~ wrong_key_fails (crypto_js "").
Proof.
  intros H.
  assert (H1 : "CSE2024ABC" <> "") by discriminate.
  assert (H2 : "k2" <> "k1") by discriminate.
  assert (H3 : User.departmentCode unsealed = Some "CSE2024ABC") by reflexivity.
  assert (H4 : pre_save (keyed "k1") (crypto_js "") true "saltsalt" unsealed
               = Js.Normal Scenario.alice) by (vm_compute; reflexivity).
  destruct (H "CSE2024ABC" "k1" "k2" "saltsalt" unsealed Scenario.alice H1 H2 H3 H4)
    as [e He].
  vm_compute in He. discriminate.
Qed.

(** The hook and the method add nothing to the library: whenever [lib]
    decrypts under [key] what it encrypted under [key], so do they; and
    under any configured key the method answers exactly what [lib] makes
    of the stored text. *)
Lemma round_trip_through (lib : CryptoJS.t) (secret key salt sealed : string)
    (bytes : CryptoJS.WordArray lib) (u : User.t) :
  secret <> "" ->
  User.departmentCode u = Some secret ->
  CryptoJS.AES_encrypt lib secret (Some key) salt = Js.Normal sealed ->
  sealed <> "" ->
  CryptoJS.AES_decrypt lib sealed (Some key) = Js.Normal bytes ->
  CryptoJS.toString_Utf8 lib bytes = Js.Normal secret ->
  exists u',
    pre_save (keyed key) lib true salt u = Js.Normal u'
    /\ User.departmentCode u' = Some sealed
    /\ getDecryptedDepartmentCode (keyed key) lib u' = Js.Normal (Some secret)
    /\ forall process_env,
         getDecryptedDepartmentCode process_env lib u'
         = match CryptoJS.AES_decrypt lib sealed (ENCRYPTION_KEY process_env) with
           | Js.Normal b =>
               match CryptoJS.toString_Utf8 lib b with
               | Js.Normal s => Js.Normal (Some s)
               | Js.Thrown e => Js.Thrown e
               end
           | Js.Thrown e => Js.Thrown e
           end.
Proof.
  intros Hs Hu He Hsealed Hd Ht.
  assert (Htruthy : forall s, s <> "" -> Js.truthy (Some s) = true).
  { intros s H. simpl. by destruct (String.eqb_spec s ""). }
  exists (User.set_departmentCode (Some sealed) u).
  split.
  { unfold pre_save. rewrite Hu, (Htruthy _ Hs). simpl. by rewrite He. }
  split; [reflexivity|].
  assert (Hget : forall process_env,
            getDecryptedDepartmentCode process_env lib
              (User.set_departmentCode (Some sealed) u)
            = match CryptoJS.AES_decrypt lib sealed (ENCRYPTION_KEY process_env) with
              | Js.Normal b =>
                  match CryptoJS.toString_Utf8 lib b with
                  | Js.Normal s => Js.Normal (Some s)
                  | Js.Thrown e => Js.Thrown e
                  end
              | Js.Thrown e => Js.Thrown e
              end).
  { intros process_env. unfold getDecryptedDepartmentCode.
    cbn [User.departmentCode User.set_departmentCode].
    by rewrite (Htruthy _ Hsealed). }
  split; [|exact Hget]. rewrite Hget. simpl. by rewrite Hd, Ht.
Qed.

(** C2, as the code has it.  For every non-empty secret and every key,
    [getDecryptedDepartmentCode] gives back the secret that the
    [pre('save')] hook encrypted under the same key.  Under any configured
    key, the encryption key or another, the method answers exactly what
    crypto-js makes of the stored text: it throws only where crypto-js
    throws and otherwise returns the decoded string, without any check of
    its own. *)
Theorem department_code_round_trip (fresh secret key salt : string) (u : User.t) :
  secret <> "" ->
  Utf8.well_formed (S (length (Octets.octets secret))) (Octets.octets secret) = true ->
  User.departmentCode u = Some secret ->
  exists u' sealed,
    pre_save (keyed key) (crypto_js fresh) true salt u = Js.Normal u'
    /\ User.departmentCode u' = Some sealed
    /\ getDecryptedDepartmentCode (keyed key) (crypto_js fresh) u'
       = Js.Normal (Some secret)
    /\ forall process_env,
         getDecryptedDepartmentCode process_env (crypto_js fresh) u'
         = match PasswordBasedCipher.decrypt fresh sealed
                   (ENCRYPTION_KEY process_env) with
           | Js.Normal b =>
               match PasswordBasedCipher.toString_Utf8 b with
               | Js.Normal s => Js.Normal (Some s)
               | Js.Thrown e => Js.Thrown e
               end
           | Js.Thrown e => Js.Thrown e
           end.
Proof.
  intros Hs Hutf Hu.
  destruct (crypto_js_inverts fresh secret key salt Hutf)
    as (sealed & bytes & He & Hne & Hd & Ht).
  destruct (round_trip_through (crypto_js fresh) secret key salt sealed bytes u
              Hs Hu He Hne Hd Ht) as (u' & H1 & H2 & H3 & H4).
  exists u', sealed. split; [exact H1|]. split; [exact H2|].
  split; [exact H3|exact H4].
Qed.

Lemma department_code_round_trip_witness :
  "CSE2024ABC" <> ""
  /\ Utf8.well_formed (S (length (Octets.octets "CSE2024ABC")))
       (Octets.octets "CSE2024ABC") = true
  /\ User.departmentCode unsealed = Some "CSE2024ABC"
  /\ exists u' sealed,
       pre_save (keyed "k1") (crypto_js "") true "saltsalt" unsealed = Js.Normal u'
       /\ User.departmentCode u' = Some sealed
       /\ getDecryptedDepartmentCode (keyed "k1") (crypto_js "") u'
          = Js.Normal (Some "CSE2024ABC").
Proof.
  assert (H1 : "CSE2024ABC" <> "") by discriminate.
  assert (H2 : Utf8.well_formed (S (length (Octets.octets "CSE2024ABC")))
                 (Octets.octets "CSE2024ABC") = true) by reflexivity.
  assert (H3 : User.departmentCode unsealed = Some "CSE2024ABC") by reflexivity.
  repeat (split; [assumption|]).
  destruct (department_code_round_trip "" "CSE2024ABC" "k1" "saltsalt" unsealed
              H1 H2 H3) as (u' & sealed & Hsave & Hcode & Hback & _).
  exists u', sealed. split; [exact Hsave|]. split; [exact Hcode|exact Hback].
Defined.

(** The two accesses of the scenario, interleaved. *)
Example overlapping_run :
  let st := exec overlapping
              (Scenario.world,
               fresh_calls [Scenario.visitor; Scenario.from Scenario.dave] 10%N) in
  viewCount_of 10%N Scenario.world = Some 5%Z
  /\ viewCount_of 10%N st.1 = Some 6%Z
  /\ (at_pc <$> st.2)
     = replicate 2
         (Done (Json 200 true "Folder accessed"
                  (Link "https://drive.google.com/drive/folders/drv-1"
                     "Data Structures" "Alice")))
  /\ length (logs st.1) = 2%nat.
Proof. by vm_compute. Qed.

(** The administrator gives Bob the secret ["ECE2024XYZ"]; it is stored
    encrypted, and a student who presents it for ECE is let in. *)
Example code_set_then_verified :
  let w1 :=
    (updateDepartmentCode Scenario.env (crypto_js "") (fun _ => "saltsalt")
       (Scenario.from Scenario.root) 2%N (Some "ECE2024XYZ") Scenario.world).2 in
  (User.departmentCode <$> users w1 !! 2%N)
  = Some (Some "U2FsdGVkX19zYWx0c2FsdBBfhzaUGEB4ShSYmHaNfOw=")
  /\ (verifyDepartmentCode Scenario.env (crypto_js "") (fun _ => "saltsalt")
        Scenario.visitor "ECE2024XYZ" "ECE" w1).1
     = Js.Normal (Json 200 true "Department code verified successfully"
                    (Department "ECE"))
  /\ (verifyDepartmentCode Scenario.env (crypto_js "") (fun _ => "saltsalt")
        Scenario.visitor "ECE2024XYZ" "ECE" Scenario.world).1
     = Js.Normal (Json 401 false "Invalid department code" NoData).
Proof. vm_compute. repeat split. Qed.
